(** * homebridge-atomberg-fan: session manager, broadcast decoder and
      reconciliation engine, embedded from the TypeScript sources.

    - [Js]        the fragment of the host language the sources rely on
                  (completions, JSON values, ToNumber / ToInt32, [&]);
    - [Broadcast] src/broadcastListener.ts ([parseMessage], [onMessage]);
    - [Api]       src/atombergApi.ts ([login], [retryLogin], the three
                  request wrappers, [handleNetworkRequestError]);
    - [Accessory] src/platformAccessory.ts ([refreshDeviceStatus]);
    - [Platform]  src/platform.ts ([discoverDevices], the post-login
                  handler of [didFinishLaunching]). *)

From Stdlib Require Import ZArith QArith_base Lia Bool Ascii String.
From stdpp Require Import gmap strings list fin_maps.

Local Open Scope Z_scope.

#[local] Set Warnings "-clear-no-such-hyp".

(** ** The host language *)

Module Js.

(** Errors the sources can meet: [JSON.parse] raises a SyntaxError, a
    property read on [null]/[undefined] or a call of a non-function raises
    a TypeError. *)
Inductive JsError :=
| SyntaxError (msg : string)
| TypeError (msg : string).

(** Completion of an expression or of a function body: a value, or a
    thrown error that unwinds to the closest [catch]. *)
Inductive Completion (A : Type) :=
| Normal (a : A)
| Throw (e : JsError).
Arguments Normal {A} a.
Arguments Throw {A} e.

Definition bind {A B} (c : Completion A) (k : A → Completion B) : Completion B :=
  match c with
  | Normal a => k a
  | Throw e => Throw e
  end.

(** A Number: NaN, an infinity, or a finite double, which is a rational. *)
Inductive Number :=
| NaN
| Infinity (negative : bool)
| Finite (q : Q).

(** An integer literal such as [0x10], or the Number that the decimal
    text of an integer denotes. The rational [inject_Z z] is a double, with
    no rounding, for every [z] up to 2^53 in absolute value
    ([safe_integer]); beyond that ToNumber rounds and [int z] stands for no
    Number. *)
Definition int (z : Z) : Number := Finite (inject_Z z).

(** The integers a double holds exactly without gaps. *)
Definition safe_integer (z : Z) : Prop := - 2 ^ 53 <= z <= 2 ^ 53.

(** What [JSON.parse] can return, plus [undefined] for absent properties. *)
#[local] Unset Elimination Schemes.
Inductive JsValue :=
| JsUndefined
| JsNull
| JsBool (b : bool)
| JsNum (n : Number)
| JsStr (s : string)
| JsArr (items : list JsValue)
| JsObj (props : list (string * JsValue)).
#[local] Set Elimination Schemes.

Definition two31 : Z := 2147483648.
Definition two32 : Z := 4294967296.

(** Reduction modulo 2^32 into [-2^31, 2^31). *)
Definition wrap32 (z : Z) : Z := (z + two31) mod two32 - two31.

(** ToInt32 (ECMA-262 7.1.6): NaN and the infinities give 0; a finite number
    is truncated toward zero, then reduced modulo 2^32 to a signed value. *)
Definition ToInt32 (n : Number) : Z :=
  match n with
  | NaN | Infinity _ => 0
  | Finite q => wrap32 (Z.quot (Qnum q) (Z.pos (Qden q)))
  end.

(** ToBoolean (ECMA-262 7.1.2). *)
Definition ToBoolean (v : JsValue) : bool :=
  match v with
  | JsUndefined | JsNull => false
  | JsBool b => b
  | JsNum NaN => false
  | JsNum (Infinity _) => true
  | JsNum (Finite q) => negb (Qnum q =? 0)
  | JsStr s => negb (String.eqb s "")
  | JsArr _ | JsObj _ => true
  end.

(** [a & b]: both operands through ToInt32, then the bitwise and of the two
    signed 32-bit integers. *)
Definition bitand (a b : Number) : Z := Z.land (ToInt32 a) (ToInt32 b).

(** Own-property lookup; the first binding of a key is the object's
    property. *)
Fixpoint assoc (key : string) (props : list (string * JsValue)) : JsValue :=
  match props with
  | [] => JsUndefined
  | (k, v) :: rest => if String.eqb k key then v else assoc key rest
  end.

(** [v[key]] for a key that names no built-in property of the prototypes
    (the sources read the fields of messages, response bodies and errors
    this way): a TypeError
    on [null] and [undefined], [undefined] on primitives and arrays, the
    own property on objects. *)
Definition Get (v : JsValue) (key : string) : Completion JsValue :=
  match v with
  | JsUndefined | JsNull =>
      Throw (TypeError ("Cannot read properties of undefined or null: " +:+ key))
  | JsObj props => Normal (assoc key props)
  | JsBool _ | JsNum _ | JsStr _ | JsArr _ => Normal JsUndefined
  end.

(** [s.split(',')]: the pieces between the commas; never empty. *)
Fixpoint split_comma (s : string) : list string :=
  match s with
  | EmptyString => [EmptyString]
  | String c rest =>
      if Ascii.eqb c ","%char then EmptyString :: split_comma rest
      else match split_comma rest with
           | [] => [String c EmptyString]
           | piece :: pieces => String c piece :: pieces
           end
  end.

(** [v.split(',')]: only a string has the method; on [undefined]/[null]
    the property read throws, on any other JSON value [split] is not a
    function, a TypeError as well. *)
Definition call_split (v : JsValue) : Completion (list string) :=
  match v with
  | JsStr s => Normal (split_comma s)
  | JsUndefined | JsNull =>
      Throw (TypeError "Cannot read properties of undefined (reading 'split')")
  | _ => Throw (TypeError "split is not a function")
  end.

(** [pieces[0]]: [None] stands for [undefined] (an empty array). *)
Definition first (pieces : list string) : option string := head pieces.

End Js.

Import Js.

Notation "'let*' x ':=' c 'in' k" := (Js.bind c (fun x => k))
  (at level 10, x name, c at level 100, k at level 200).

(** ** src/model.ts *)

Module Model.

Record AtombergFanDevice := {
  device_id : string;
  color : string;
  series : string;
  model : string;
  room : string;
  name : string;
  metadata_ssid : string
}.

(** [state_device_id] is a [JsValue]: the decoder copies whatever the
    payload holds under ['device_id'], [undefined] included.
    [ts_epoch_seconds] is absent from a decoded broadcast. *)
Record AtombergFanDeviceState := {
  state_device_id : JsValue;
  is_online : bool;
  power : bool;
  led : bool;
  sleep_mode : bool;
  last_recorded_speed : Z;
  timer_hours : Z;
  timer_time_elapsed_mins : Z;
  ts_epoch_seconds : option Z;
  last_recorded_brightness : Z;
  last_recorded_color : string
}.

(** A command: only the fields that are present are sent. *)
Record AtombergFanCommandType := {
  cmd_power : option bool;
  cmd_speed : option Z
}.

Record AtombergFanCommandData := {
  cmd_device_id : string;
  command : AtombergFanCommandType
}.

End Model.

Import Model.

(** ** src/broadcastListener.ts *)

Module Broadcast.

Inductive Effect :=
| LogDebug (msg : string) (res : option AtombergFanDeviceState)
| LogError (msg : string) (error : JsError)
| Emit (event : string) (state : AtombergFanDeviceState).

Record RemoteInfo := {
  address : string;
  port : Z;
  size : Z
}.

(** [stateCode] is used as an operand of [&] only, so only ToInt32 of its
    ToNumber matters; the nine locals of [parseMessage] follow. The three
    divisions are floating-point divisions whose operands are exact
    multiples of the divisor (lemmas [fanTimer_exact], [brightness_exact]
    and [fanTimerElapsedMins_exact]), hence integer division here. *)
Definition decodeState (device_id : JsValue) (stateCode : Number)
  : AtombergFanDeviceState :=
  let power := 0 <? bitand (int 0x10) stateCode in
  let led := 0 <? bitand (int 0x20) stateCode in
  let sleep := 0 <? bitand (int 0x80) stateCode in
  let speed := bitand (int 0x07) stateCode in
  let fanTimer := bitand (int 0x0F0000) stateCode / 65536 in
  let fanTimerElapsedMins := bitand (int 0xFF000000) stateCode * 4 / 16777216 in
  let brightness := bitand (int 0x7F00) stateCode / 256 in
  let cool := 0 <? bitand (int 0x08) stateCode in
  let warm := 0 <? bitand (int 0x8000) stateCode in
  {| state_device_id := device_id;
     is_online := true;
     power := power;
     led := led;
     sleep_mode := sleep;
     last_recorded_speed := speed;
     timer_hours := fanTimer;
     timer_time_elapsed_mins := fanTimerElapsedMins;
     ts_epoch_seconds := None;
     last_recorded_brightness := brightness;
     last_recorded_color :=
       if cool then (if warm then "Daylight" else "Cool") else "Warm" |}.

(** The colour mode as the protocol describes it: cool flag false gives
    "Warm", cool and not warm gives "Cool", both give "Daylight". *)
Definition colorMode (cool warm : bool) : string :=
  if cool then (if warm then "Daylight" else "Cool") else "Warm".

(** The state code built from its fields, one field per mask of the
    protocol table; the converse of [decodeState]. *)
Definition encodeState (power led sleep : bool) (speed timer elapsed brightness : Z)
    (cool warm : bool) : Z :=
  Z.b2z power * 0x10 + Z.b2z led * 0x20 + Z.b2z sleep * 0x80 + speed
  + timer * 0x10000 + elapsed * 0x1000000 + brightness * 0x100
  + Z.b2z cool * 0x08 + Z.b2z warm * 0x8000.

(** [Buffer.from(hexString, 'hex')]: pairs of hex digits, up to the first
    pair that is not one; never throws. *)
Definition hexval (c : ascii) : option N :=
  let n := N_of_ascii c in
  if ((48 <=? n) && (n <=? 57))%N then Some (n - 48)%N
  else if ((65 <=? n) && (n <=? 70))%N then Some (n - 55)%N
  else if ((97 <=? n) && (n <=? 102))%N then Some (n - 87)%N
  else None.

Fixpoint Buffer_from_hex (s : string) : list Byte.byte :=
  match s with
  | String a (String b rest) =>
      match hexval a, hexval b with
      | Some hi, Some lo =>
          match Byte.of_N (16 * hi + lo) with
          | Some byte => byte :: Buffer_from_hex rest
          | None => []
          end
      | _, _ => []
      end
  | _ => []
  end.

Section Listener.

(** Built-ins of the runtime, taken as they are: UTF-8 decoding of a buffer
    ([buf.toString()]), [JSON.parse], and ToNumber on a string. *)
Variable Buffer_toString : list Byte.byte → string.
Variable JSON_parse : string → Completion JsValue.
Variable StringToNumber : string → Number.

(** ToNumber of [pieces[0]]: NaN for [undefined]. *)
Definition ToNumber (v : option string) : Number :=
  match v with
  | None => NaN
  | Some s => StringToNumber s
  end.

(** The body of the [try] block of [parseMessage]. *)
Definition parseMessage_try (message : list Byte.byte)
  : Completion AtombergFanDeviceState :=
  let hexString := Buffer_toString message in
  let stringMessage := Buffer_toString (Buffer_from_hex hexString) in
  let* jsonMessage := JSON_parse stringMessage in
  let* state_string := Get jsonMessage "state_string" in
  let* pieces := call_split state_string in
  let stateCode := first pieces in
  let* device_id := Get jsonMessage "device_id" in
  Normal (decodeState device_id (ToNumber stateCode)).

(** [parseMessage]: the effects (the log line of the [catch]) and the
    completion seen by the caller; [None] is [null]. *)
Definition parseMessage (message : list Byte.byte)
  : list Effect * Completion (option AtombergFanDeviceState) :=
  match parseMessage_try message with
  | Normal state => ([], Normal (Some state))
  | Throw error =>
      ([LogError "Error parsing broadcast message: " error], Normal None)
  end.

(** [onMessage]: size filter, decode, log, publish. *)
Definition onMessage (message : list Byte.byte) (remote : RemoteInfo)
  : list Effect * Completion unit :=
  if 100 <? size remote then
    let (effects, completion) := parseMessage message in
    match completion with
    | Normal res =>
        let logged := effects ++ [LogDebug "Received message from " res] in
        match res with
        | Some state => (logged ++ [Emit "stateChange" state], Normal tt)
        | None => (logged, Normal tt)
        end
    | Throw error =>
        (effects ++ [LogError "Error parsing broadcast message: " error], Normal tt)
    end
  else ([], Normal tt).

End Listener.

(** The states a run of [onMessage] published with [emit]. *)
Definition emitted (effects : list Effect) : list AtombergFanDeviceState :=
  omap (λ e, match e with Emit _ state => Some state | _ => None end) effects.

(** A string without a comma. *)
Fixpoint comma_free (s : string) : bool :=
  match s with
  | EmptyString => true
  | String c rest => negb (Ascii.eqb c ","%char) && comma_free rest
  end.

End Broadcast.

(** ** src/settings.ts and src/atombergApi.ts *)

Module Api.

Definition LOGIN_RETRY_DELAY : Z := 360 * 1000.
Definition LOGIN_TOKEN_REFRESH_INTERVAL : Z := 60 * 60 * 23 * 1000.
Definition ATOMBERG_API_HOST : string := "https://api.developer.atomberg-iot.com".
Definition GET_ACCESS_TOKEN : string := "/v1/get_access_token".
Definition GET_DEVICES : string := "/v1/get_list_of_devices".
Definition SEND_COMMAND : string := "/v1/send_command".
Definition GET_DEVICE_STATE : string := "/v1/get_device_state".

Definition ATOMBERG_ERROR_CODES (status : Z) : option string :=
  if status =? 401 then Some "Access token expired"
  else if status =? 403 then
    Some "Forbidden, please make sure Developer mode is enabled and correct token is provided"
  else if status =? 404 then Some "Device not found"
  else if status =? 429 then Some "API limit Reached"
  else None.

Record AtombergFanPlatformConfig := {
  apiKey : string;
  refreshToken : string
}.

(** The fields of an [AxiosError] that the handlers read: the status of
    [error.response] when there is one, whether [error.request] is set, and
    [error.message]. *)
Record AxiosError := {
  error_response : option Z;
  error_request : bool;
  error_message : string
}.

(** What a promise is rejected with, or what a [catch] receives. *)
Inductive Reason :=
| AxiosErr (error : AxiosError)
| Thrown (error : JsError)
| Value (v : JsValue).

Inductive Settled (A : Type) :=
| Fulfilled (value : A)
| Rejected (reason : Reason).
Arguments Fulfilled {A} value.
Arguments Rejected {A} reason.

(** How [axios.request] settles: a 2xx response with its parsed body, or a
    rejection (non-2xx status, no response, or a request that could not be
    built). *)
Inductive AxiosResult :=
| Response (data : JsValue)
| Failure (error : AxiosError).

(** Timers of the event loop. Every timer the class creates has the
    callback [this.login.bind(this)]. *)
Inductive TimerKind := Timeout | Interval.

Record Timer := {
  timer_id : nat;
  timer_kind : TimerKind;
  timer_delay : Z
}.

Inductive Effect :=
| Request (method url : string) (bearer : JsValue)
          (body : option AtombergFanCommandData)
| Debug (msg : string)
| DebugValue (v : JsValue)
| DebugReason (r : Reason)
| Error (msg : string)
| ErrorInherited (name : string).

(** The [AtombergApi] instance with the part of the runtime it acts on:
    the active timers and the trace of requests and log lines (latest
    last). *)
Record World := {
  config : AtombergFanPlatformConfig;
  accessToken : JsValue;
  _loginRefreshInterval : option nat;
  _loginRetryTimeouts : list nat;
  timers : list Timer;
  next_timer : nat;
  trace : list Effect
}.

(** [new AtombergApi(logger, config)] in a runtime without timers. *)
Definition constructor (cfg : AtombergFanPlatformConfig) : World :=
  {| config := cfg;
     accessToken := JsStr "";
     _loginRefreshInterval := None;
     _loginRetryTimeouts := [];
     timers := [];
     next_timer := 0;
     trace := [] |}.

Definition emit (e : Effect) (w : World) : World :=
  {| config := config w;
     accessToken := accessToken w;
     _loginRefreshInterval := _loginRefreshInterval w;
     _loginRetryTimeouts := _loginRetryTimeouts w;
     timers := timers w;
     next_timer := next_timer w;
     trace := trace w ++ [e] |}.

Definition set_accessToken (token : JsValue) (w : World) : World :=
  {| config := config w;
     accessToken := token;
     _loginRefreshInterval := _loginRefreshInterval w;
     _loginRetryTimeouts := _loginRetryTimeouts w;
     timers := timers w;
     next_timer := next_timer w;
     trace := trace w |}.

Definition set_loginRefreshInterval (id : nat) (w : World) : World :=
  {| config := config w;
     accessToken := accessToken w;
     _loginRefreshInterval := Some id;
     _loginRetryTimeouts := _loginRetryTimeouts w;
     timers := timers w;
     next_timer := next_timer w;
     trace := trace w |}.

Definition push_loginRetryTimeouts (id : nat) (w : World) : World :=
  {| config := config w;
     accessToken := accessToken w;
     _loginRefreshInterval := _loginRefreshInterval w;
     _loginRetryTimeouts := _loginRetryTimeouts w ++ [id];
     timers := timers w;
     next_timer := next_timer w;
     trace := trace w |}.

Definition set_timers (ts : list Timer) (next : nat) (w : World) : World :=
  {| config := config w;
     accessToken := accessToken w;
     _loginRefreshInterval := _loginRefreshInterval w;
     _loginRetryTimeouts := _loginRetryTimeouts w;
     timers := ts;
     next_timer := next;
     trace := trace w |}.

(** [setTimeout] / [setInterval]: a fresh handle, the timer becomes active. *)
Definition setTimer (kind : TimerKind) (delay : Z) (w : World) : nat * World :=
  let id := next_timer w in
  (id, set_timers (timers w ++ [{| timer_id := id; timer_kind := kind; timer_delay := delay |}])
                  (S id) w).

Definition setTimeout := setTimer Timeout.
Definition setInterval := setTimer Interval.

(** [clearTimeout(id)]: the timer with that handle, if still active, is
    cancelled; otherwise nothing happens. *)
Definition clearTimeout (id : nat) (w : World) : World :=
  set_timers (filter (λ t, timer_id t ≠ id) (timers w)) (next_timer w) w.

(** [clearInterval(handle)]: as [clearTimeout]; [undefined] is ignored. *)
Definition clearInterval (handle : option nat) (w : World) : World :=
  match handle with
  | Some id => clearTimeout id w
  | None => w
  end.

(** [retryLogin(error)]: three log lines, then one timeout that calls
    [login] after [LOGIN_RETRY_DELAY], pushed on [_loginRetryTimeouts]. *)
Definition retryLogin (error : Effect) (w : World) : World :=
  let w := emit (Debug "AtombergFanApi: AtombergFan platform login failed") w in
  let w := emit error w in
  let w := emit (Error "Login failed. Homebridge will try to log in again in 360 seconds.") w in
  let (id, w) := setTimeout LOGIN_RETRY_DELAY w in
  push_loginRetryTimeouts id w.

(** [login()], up to and including [axios.request]: the retry timeouts and
    the refresh interval on record are cleared, then the request is sent. *)
Definition login_request (w : World) : World :=
  let w := foldl (λ w timeoutId, clearTimeout timeoutId w) w (_loginRetryTimeouts w) in
  let w := clearInterval (_loginRefreshInterval w) w in
  emit (Request "get" (ATOMBERG_API_HOST +:+ GET_ACCESS_TOKEN)
                (JsStr (refreshToken (config w))) None) w.

(** [v !== 'Success'] *)
Definition is_not_Success (v : JsValue) : bool :=
  match v with
  | JsStr s => negb (String.eqb s "Success")
  | _ => true
  end.

(** The [.then] handler of [login]. A TypeError can only come from
    [response.data.status] or from [response.data.message.access_token],
    both read before the instance is written. *)
Definition login_then (data : JsValue) (w : World) : Completion World :=
  let* status := Get data "status" in
  if is_not_Success status then
    let w := set_accessToken (JsStr "") w in
    let* message := Get data "message" in
    Normal (retryLogin (DebugValue message) w)
  else
    let* message := Get data "message" in
    let* access_token := Get message "access_token" in
    let w := set_accessToken access_token w in
    let (id, w) := setInterval LOGIN_TOKEN_REFRESH_INTERVAL w in
    Normal (set_loginRefreshInterval id w).

(** The [.catch] handler of [login]. *)
Definition login_catch (error : Reason) (w : World) : World :=
  retryLogin (DebugReason error) w.

(** [login()] from the settlement of its request on: the instance after
    the handlers ran, and how the promise returned by [login()] settles. *)
Definition login_settle (result : AxiosResult) (w : World) : World * Settled JsValue :=
  match result with
  | Response data =>
      match login_then data w with
      | Normal w' => (w', Fulfilled JsUndefined)
      | Throw e => (login_catch (Thrown e) w, Fulfilled JsUndefined)
      end
  | Failure error => (login_catch (AxiosErr error) w, Fulfilled JsUndefined)
  end.

(** A whole [login()] whose request settles before anything else runs. *)
Definition login (result : AxiosResult) (w : World) : World * Settled JsValue :=
  login_settle result (login_request w).

(** [handleNetworkRequestError(error)] for an [AxiosError].
    [JSON.stringify(error.response)] is taken to return: whether it does
    on the response object of the HTTP library is outside these sources. *)
Definition handleNetworkRequestError (error : AxiosError) (w : World) : World :=
  match error_response error with
  | Some status =>
      let w := emit (DebugReason (AxiosErr error)) w in
      if status =? 401 then
        let (id, w) := setTimeout LOGIN_RETRY_DELAY w in
        push_loginRetryTimeouts id w
      else
        match ATOMBERG_ERROR_CODES status with
        | Some cause => emit (Error cause) w
        | None => emit (Debug "Some error occurred") w
        end
  | None =>
      if error_request error then emit (Debug "error.request") w
      else emit (Debug (error_message error)) w
  end.

(** How a call of one of the three operations starts: rejected on the
    spot, or waiting for its request. *)
Inductive Started :=
| RejectedNow (reason : Reason)
| Pending.

Definition NO_AUTH_TOKEN : string :=
  "No auth token available (login probably failed). " +:+
  "Check your credentials and restart HomeBridge.".

(** [getAllDevices()], up to and including [axios.request]. *)
Definition getAllDevices (w : World) : World * Started :=
  let w := emit (Debug "AtombergFanApi: Fetching Device Details from AtombergFanApi platform") w in
  if negb (ToBoolean (accessToken w)) then
    (w, RejectedNow (Value (JsStr NO_AUTH_TOKEN)))
  else
    (emit (Request "get" (ATOMBERG_API_HOST +:+ GET_DEVICES) (accessToken w) None) w,
     Pending).

(** [getDeviceState()], up to and including [axios.request]. *)
Definition getDeviceState (w : World) : World * Started :=
  let w := emit (Debug "AtombergFanApi: Fetching Device State from AtombergFanApi platform") w in
  if negb (ToBoolean (accessToken w)) then
    (w, RejectedNow (Value (JsStr NO_AUTH_TOKEN)))
  else
    (emit (Request "get" (ATOMBERG_API_HOST +:+ GET_DEVICE_STATE) (accessToken w) None) w,
     Pending).

(** [sendCommand(data)], up to and including [axios.request]. *)
Definition sendCommand (data : AtombergFanCommandData) (w : World) : World * Started :=
  let w := emit (Debug "AtombergFanApi: Sending command to AtombergFanApi platform") w in
  if negb (ToBoolean (accessToken w)) then
    (w, RejectedNow (Value (JsStr NO_AUTH_TOKEN)))
  else
    (emit (Request "post" (ATOMBERG_API_HOST +:+ SEND_COMMAND) (accessToken w) (Some data)) w,
     Pending).

(** [response.data?.message ?? response.data], for a [data] whose [status]
    was read already (so it is neither [null] nor [undefined]). *)
Definition message_or_data (data : JsValue) : JsValue :=
  match Get data "message" with
  | Normal JsUndefined | Normal JsNull | Throw _ => data
  | Normal message => message
  end.

(** The [.then] handler of the three operations; [result] reads the value
    out of the body ([message.devices_list], [message.device_state], or
    [true] for a command). *)
Definition request_then (result : JsValue → Completion JsValue) (done : option string)
    (data : JsValue) (w : World) : World * Completion (Settled JsValue) :=
  let w := emit (DebugValue data) w in
  match Get data "status" with
  | Throw e => (w, Throw e)
  | Normal status =>
      if is_not_Success status then
        (w, Normal (Rejected (Value (message_or_data data))))
      else
        let w := match done with Some msg => emit (Debug msg) w | None => w end in
        match result data with
        | Normal v => (w, Normal (Fulfilled v))
        | Throw e => (w, Throw e)
        end
  end.

(** *** [handleNetworkRequestError] on what the [.then] handler rejects

    The [.catch] handlers also receive the payload that the [.then]
    handler rejected with, a JSON value and no [AxiosError]; the function
    reads [response], [response.status], [request] and [message] off it
    all the same. *)

(** [error.response.status === 401] *)
Definition is_401 (status : JsValue) : bool :=
  match status with
  | JsNum (Finite q) => Qeq_bool q (inject_Z 401)
  | _ => false
  end.

Definition has_own (key : string) (props : list (string * JsValue)) : bool :=
  existsb (λ kv, String.eqb (fst kv) key) props.

(** Whether using a value as a property key throws. ToPropertyKey turns
    the value into a string; a parsed object that has a [toString] of its
    own (never callable) cannot be converted, and joining an array
    converts each of its elements. *)
Fixpoint key_throws (v : JsValue) : bool :=
  match v with
  | JsObj props => has_own "toString" props
  | JsArr items => existsb key_throws items
  | _ => false
  end.

(** The property key of a value, as far as it can name a property of
    [ATOMBERG_ERROR_CODES]: an integer number is its decimal text, a string
    is itself, an array of one element is the key of the element. Every
    other key (a text with a comma, "true", "null", "[object Object]", a
    number that is no integer) names nothing. *)
Inductive Key :=
| CodeKey (n : Z)
| NameKey (s : string)
| OtherKey.

Fixpoint key_of (v : JsValue) : Key :=
  match v with
  | JsNum (Finite q) =>
      if Z.rem (Qnum q) (Z.pos (Qden q)) =? 0
      then CodeKey (Z.quot (Qnum q) (Z.pos (Qden q)))
      else OtherKey
  | JsStr s => NameKey s
  | JsArr [] => NameKey ""
  | JsArr [item] =>
      match item with
      | JsUndefined | JsNull => NameKey ""
      | _ => key_of item
      end
  | _ => OtherKey
  end.

(** The names an object literal inherits from [Object.prototype]. *)
Definition inherited_names : list string :=
  ["constructor"; "__defineGetter__"; "__defineSetter__"; "hasOwnProperty";
   "__lookupGetter__"; "__lookupSetter__"; "isPrototypeOf"; "propertyIsEnumerable";
   "toString"; "valueOf"; "__proto__"; "toLocaleString"].

(** [logger.error(ATOMBERG_ERROR_CODES[key])] when the lookup is truthy:
    the cause of a code of the table, or the member inherited under that
    name; [None] when the lookup is [undefined]. *)
Definition error_code (key : Key) : option Effect :=
  match key with
  | CodeKey n => Error <$> ATOMBERG_ERROR_CODES n
  | NameKey s =>
      if String.eqb s "401" then Error <$> ATOMBERG_ERROR_CODES 401
      else if String.eqb s "403" then Error <$> ATOMBERG_ERROR_CODES 403
      else if String.eqb s "404" then Error <$> ATOMBERG_ERROR_CODES 404
      else if String.eqb s "429" then Error <$> ATOMBERG_ERROR_CODES 429
      else if existsb (String.eqb s) inherited_names then Some (ErrorInherited s)
      else None
  | OtherKey => None
  end.

(** [handleNetworkRequestError(error)] for a JSON value [error]: the world
    it leaves, and the TypeError when it throws. *)
Definition handlePayloadError (error : JsValue) (w : World) : World * option JsError :=
  match Get error "response" with
  | Throw e => (w, Some e)
  | Normal response =>
      if ToBoolean response then
        let w := emit (DebugValue response) w in
        match Get response "status" with
        | Throw e => (w, Some e)
        | Normal status =>
            if is_401 status then
              let (id, w) := setTimeout LOGIN_RETRY_DELAY w in
              (push_loginRetryTimeouts id w, None)
            else if key_throws status then
              (w, Some (TypeError "Cannot convert object to primitive value"))
            else
              match error_code (key_of status) with
              | Some logged => (emit logged w, None)
              | None =>
                  match Get response "data" with
                  | Normal JsUndefined | Normal JsNull | Throw _ =>
                      (emit (Debug "Some error occurred") w, None)
                  | Normal data => (emit (DebugValue data) w, None)
                  end
              end
        end
      else
        match Get error "request" with
        | Throw e => (w, Some e)
        | Normal request =>
            if ToBoolean request then (emit (DebugValue request) w, None)
            else
              match Get error "message" with
              | Throw e => (w, Some e)
              | Normal message => (emit (DebugValue message) w, None)
              end
        end
  end.

(** An error thrown by the [.then] handler, as [handleNetworkRequestError]
    reads it: a message, and neither [response] nor [request]. *)
Definition thrown_error (e : JsError) : AxiosError :=
  match e with
  | SyntaxError msg | TypeError msg =>
      {| error_response := None; error_request := false; error_message := msg |}
  end.

(** The [.catch] handler of the three operations: log, classify, and
    reject with no reason; when the classification throws, the promise is
    rejected with what it threw. *)
Definition request_catch (failed : string) (error : Reason) (w : World)
  : World * Settled JsValue :=
  let w := emit (Debug failed) w in
  match error with
  | AxiosErr error => (handleNetworkRequestError error w, Rejected (Value JsUndefined))
  | Thrown e => (handleNetworkRequestError (thrown_error e) w, Rejected (Value JsUndefined))
  | Value payload =>
      match handlePayloadError payload w with
      | (w, None) => (w, Rejected (Value JsUndefined))
      | (w, Some e) => (w, Rejected (Thrown e))
      end
  end.

(** An operation from the settlement of its request on. *)
Definition request_settle (result : JsValue → Completion JsValue) (done : option string)
    (failed : string) (outcome : AxiosResult) (w : World) : World * Settled JsValue :=
  match outcome with
  | Response data =>
      match request_then result done data w with
      | (w, Normal (Fulfilled v)) => (w, Fulfilled v)
      | (w, Normal (Rejected reason)) => request_catch failed reason w
      | (w, Throw e) => request_catch failed (Thrown e) w
      end
  | Failure error => request_catch failed (AxiosErr error) w
  end.

Definition message_field (field : string) (data : JsValue) : Completion JsValue :=
  let* message := Get data "message" in
  Get message field.

Definition getAllDevices_settle : AxiosResult → World → World * Settled JsValue :=
  request_settle (message_field "devices_list")
    (Some "AtombergFanApi: AtombergFan platform getAllDevices successful")
    "AtombergFanApi: AtombergFan platform getAllDevices failed".

Definition getDeviceState_settle : AxiosResult → World → World * Settled JsValue :=
  request_settle (message_field "device_state")
    (Some "AtombergFanApi: AtombergFan platform getDeviceState successful")
    "AtombergFanApi: AtombergFan platform getDeviceState failed".

Definition sendCommand_settle : AxiosResult → World → World * Settled JsValue :=
  request_settle (λ _, Normal (JsBool true)) None
    "AtombergFanApi: AtombergFan platform sendCommand failed".

(** *** The event loop around the session manager

    [in_flight] counts the login requests that have not settled yet. *)
Inductive Event :=
| CallLogin
| SettleLogin (result : AxiosResult)
| FireTimer (id : nat)
| Unauthorized.

Record Loop := {
  world : World;
  in_flight : nat
}.

Definition is_timer (id : nat) (t : Timer) : bool := Nat.eqb (timer_id t) id.

(** A timeout is spent when it fires; an interval stays active. *)
Definition fire (t : Timer) (w : World) : World :=
  match timer_kind t with
  | Timeout => clearTimeout (timer_id t) w
  | Interval => w
  end.

Definition step (l : Loop) (e : Event) : Loop :=
  match e with
  | CallLogin =>
      {| world := login_request (world l); in_flight := S (in_flight l) |}
  | SettleLogin result =>
      match in_flight l with
      | O => l
      | S n => {| world := fst (login_settle result (world l)); in_flight := n |}
      end
  | FireTimer id =>
      match find (is_timer id) (timers (world l)) with
      | Some t =>
          {| world := login_request (fire t (world l)); in_flight := S (in_flight l) |}
      | None => l
      end
  | Unauthorized =>
      {| world := handleNetworkRequestError
                    {| error_response := Some 401; error_request := true;
                       error_message := "Request failed with status code 401" |}
                    (world l);
         in_flight := in_flight l |}
  end.

Definition run (events : list Event) (l : Loop) : Loop := foldl step l events.

Definition start (cfg : AtombergFanPlatformConfig) : Loop :=
  {| world := constructor cfg; in_flight := 0 |}.

Definition is_interval (t : Timer) : bool :=
  match timer_kind t with Interval => true | Timeout => false end.

Definition is_timeout (t : Timer) : bool :=
  match timer_kind t with Timeout => true | Interval => false end.

(** The refresh intervals and the retry timeouts that are active. *)
Definition refresh_intervals (w : World) : list Timer := List.filter is_interval (timers w).
Definition retry_timeouts (w : World) : list Timer := List.filter is_timeout (timers w).

(** Every active timer is on record in the instance: an interval is the
    one held in [_loginRefreshInterval], a timeout is listed in
    [_loginRetryTimeouts]. *)
Definition on_record (w : World) : Prop :=
  ∀ t, t ∈ timers w →
    match timer_kind t with
    | Interval => _loginRefreshInterval w = Some (timer_id t)
    | Timeout => timer_id t ∈ _loginRetryTimeouts w
    end.

Definition is_request (e : Effect) : bool :=
  match e with Request _ _ _ _ => true | _ => false end.

(** The network requests of a trace. *)
Definition requests (w : World) : list Effect := List.filter is_request (trace w).

(** A request that got no response. *)
Definition network_error : AxiosError :=
  {| error_response := None; error_request := true; error_message := "Network Error" |}.

(** A non-2xx response. *)
Definition http_error (status : Z) : AxiosError :=
  {| error_response := Some status; error_request := true;
     error_message := "Request failed" |}.

(** A 2xx login response [{status: 'Success', message: {access_token}}]. *)
Definition success (token : string) : AxiosResult :=
  Response (JsObj [("status", JsStr "Success");
                   ("message", JsObj [("access_token", JsStr token)])]).

(** A 2xx login response with another status. *)
Definition refused (status : string) (message : JsValue) : AxiosResult :=
  Response (JsObj [("status", JsStr status); ("message", message)]).

(** How a login ends, read off [login_settle]: either the token is stored
    and one refresh interval is created and recorded, or one retry timeout
    is created and recorded, the token being cleared or left as it was. *)
Inductive LoginOutcome (w w' : World) : Prop :=
| Refreshed (token : JsValue) :
    accessToken w' = token →
    timers w' = timers w ++ [{| timer_id := next_timer w; timer_kind := Interval;
                                timer_delay := LOGIN_TOKEN_REFRESH_INTERVAL |}] →
    _loginRefreshInterval w' = Some (next_timer w) →
    _loginRetryTimeouts w' = _loginRetryTimeouts w →
    LoginOutcome w w'
| Retried (token : JsValue) :
    accessToken w' = token →
    (token = JsStr "" ∨ token = accessToken w) →
    timers w' = timers w ++ [{| timer_id := next_timer w; timer_kind := Timeout;
                                timer_delay := LOGIN_RETRY_DELAY |}] →
    _loginRetryTimeouts w' = _loginRetryTimeouts w ++ [next_timer w] →
    _loginRefreshInterval w' = _loginRefreshInterval w →
    LoginOutcome w w'.

(** The token a login response grants: the [access_token] of the message
    of a 2xx response whose status is ['Success']; [None] for every other
    outcome. *)
Definition granted_token (result : AxiosResult) : option JsValue :=
  match result with
  | Response data =>
      match Get data "status" with
      | Normal status =>
          if is_not_Success status then None
          else match message_field "access_token" data with
               | Normal token => Some token
               | Throw _ => None
               end
      | Throw _ => None
      end
  | Failure _ => None
  end.

(** An event that starts a login while another one is in flight. *)
Definition overlaps (l : Loop) (e : Event) : bool :=
  match e with
  | CallLogin => negb (Nat.eqb (in_flight l) 0)
  | FireTimer id =>
      match find (is_timer id) (timers (world l)) with
      | Some _ => negb (Nat.eqb (in_flight l) 0)
      | None => false
      end
  | SettleLogin _ | Unauthorized => false
  end.

(** A sequence of events in which no two logins overlap. *)
Fixpoint serial (events : list Event) (l : Loop) : bool :=
  match events with
  | [] => true
  | e :: rest => negb (overlaps l e) && serial rest (step l e)
  end.

(** The timer a retry and a refresh create in a world. *)
Definition retry_timer (w : World) : Timer :=
  {| timer_id := next_timer w; timer_kind := Timeout; timer_delay := LOGIN_RETRY_DELAY |}.

Definition refresh_timer (w : World) : Timer :=
  {| timer_id := next_timer w; timer_kind := Interval;
     timer_delay := LOGIN_TOKEN_REFRESH_INTERVAL |}.

(** The invariant of a loop whose logins do not overlap: the active timers
    are on record, at most one login is in flight, at most one refresh
    interval is active and none while a login is in flight. *)
Definition one_chain (l : Loop) : Prop :=
  on_record (world l) ∧
  (in_flight l ≤ 1)%nat ∧
  (length (refresh_intervals (world l)) ≤ 1)%nat ∧
  (in_flight l = 1%nat → refresh_intervals (world l) = []).

(** A configuration for the examples. *)
Definition example_config : AtombergFanPlatformConfig :=
  {| apiKey := "key"; refreshToken := "refresh" |}.

End Api.

(** ** src/platformAccessory.ts *)

Module Accessory.

Definition ACTIVE : Z := 1.
Definition INACTIVE : Z := 0.

(** The values of the two characteristics of the Fanv2 service that the
    handler writes; they are what the consumer (HomeKit) sees. *)
Record Service := {
  Active : Z;
  RotationSpeed : Z
}.

Inductive Effect :=
| Debug (msg : string)
| DebugError (error : JsError)
| Info (msg : string)
| Error (msg : string).

(** An [AtombergFanPlatformAccessory]: the display name of its accessory,
    [fanState] ([None] is [undefined]), its service and what it logged. *)
Record AtombergFanPlatformAccessory := {
  displayName : string;
  fanState : option AtombergFanDeviceState;
  service : Service;
  log : list Effect
}.

Definition emit (e : Effect) (a : AtombergFanPlatformAccessory) : AtombergFanPlatformAccessory :=
  {| displayName := displayName a;
     fanState := fanState a;
     service := service a;
     log := log a ++ [e] |}.

Definition updateCharacteristic (f : Service → Service) (a : AtombergFanPlatformAccessory)
  : AtombergFanPlatformAccessory :=
  {| displayName := displayName a;
     fanState := fanState a;
     service := f (service a);
     log := log a |}.

Definition set_Active (value : Z) (s : Service) : Service :=
  {| Active := value; RotationSpeed := RotationSpeed s |}.

Definition set_RotationSpeed (value : Z) (s : Service) : Service :=
  {| Active := Active s; RotationSpeed := value |}.

(** [refreshDeviceStatus(deviceState)]. With [deviceState] undefined the
    read of [is_online] throws inside the [try]; the [catch] logs. *)
Definition refreshDeviceStatus (deviceState : option AtombergFanDeviceState)
    (a : AtombergFanPlatformAccessory) : AtombergFanPlatformAccessory :=
  match deviceState with
  | None =>
      let error := TypeError "Cannot read properties of undefined (reading 'is_online')" in
      let a := emit (Error "An error occurred while refreshing the device status.") a in
      emit (DebugError error) a
  | Some deviceState =>
      if negb (is_online deviceState) then
        emit (Debug "Device is offline, skipping device status refresh") a
      else
        let a := emit (Debug "Refreshing device details") a in
        let active := if power deviceState then ACTIVE else INACTIVE in
        let a := updateCharacteristic (set_Active active) a in
        let fanSpeed := last_recorded_speed deviceState in
        let fanSpeed := if 5 <? fanSpeed then 5 else fanSpeed in
        updateCharacteristic (set_RotationSpeed (fanSpeed * 20)) a
  end.

(** The constructor, as far as the Fanv2 service goes: the service of the
    accessory if it has one, else a new one with the default values; then
    [refreshDeviceStatus(this.fanState)]. The handler holds the values of
    the service from here on; the accessory it was built on is not part of
    this record. *)
Definition constructor (name : string) (Fanv2 : option Service)
    (fanState : option AtombergFanDeviceState) : AtombergFanPlatformAccessory :=
  let service :=
    match Fanv2 with
    | Some s => s
    | None => {| Active := INACTIVE; RotationSpeed := 0 |}
    end in
  refreshDeviceStatus fanState
    {| displayName := name; fanState := fanState; service := service; log := [] |}.

(** [HAPStatus.SERVICE_COMMUNICATION_FAILURE] *)
Definition SERVICE_COMMUNICATION_FAILURE : Z := -70402.

(** What a handler can throw: the HAP status error of
    [validateDeviceConnectionStatus], or an error of the runtime. *)
Inductive Thrown :=
| HapStatusError (status : Z)
| JsThrown (error : JsError).

Definition set_fanState (st : option AtombergFanDeviceState) (a : AtombergFanPlatformAccessory)
  : AtombergFanPlatformAccessory :=
  {| displayName := displayName a;
     fanState := st;
     service := service a;
     log := log a |}.

Definition set_power (value : bool) (st : AtombergFanDeviceState) : AtombergFanDeviceState :=
  {| state_device_id := state_device_id st;
     is_online := is_online st;
     power := value;
     led := led st;
     sleep_mode := sleep_mode st;
     last_recorded_speed := last_recorded_speed st;
     timer_hours := timer_hours st;
     timer_time_elapsed_mins := timer_time_elapsed_mins st;
     ts_epoch_seconds := ts_epoch_seconds st;
     last_recorded_brightness := last_recorded_brightness st;
     last_recorded_color := last_recorded_color st |}.

Definition set_last_recorded_speed (value : Z) (st : AtombergFanDeviceState)
  : AtombergFanDeviceState :=
  {| state_device_id := state_device_id st;
     is_online := is_online st;
     power := power st;
     led := led st;
     sleep_mode := sleep_mode st;
     last_recorded_speed := value;
     timer_hours := timer_hours st;
     timer_time_elapsed_mins := timer_time_elapsed_mins st;
     ts_epoch_seconds := ts_epoch_seconds st;
     last_recorded_brightness := last_recorded_brightness st;
     last_recorded_color := last_recorded_color st |}.

(** [validateDeviceConnectionStatus()]: throws when [fanState] is offline
    (after an info line), or when it is undefined (the read of
    [is_online] fails); [None] when it returns. *)
Definition validateDeviceConnectionStatus (a : AtombergFanPlatformAccessory)
  : AtombergFanPlatformAccessory * option Thrown :=
  match fanState a with
  | None =>
      (a, Some (JsThrown (TypeError "Cannot read properties of undefined (reading 'is_online')")))
  | Some st =>
      if negb (is_online st) then
        (emit (Info "Device is offline, unable to update device characteristic value") a,
         Some (HapStatusError SERVICE_COMMUNICATION_FAILURE))
      else (a, None)
  end.

(** The [catch] of [sendDeviceUpdate]: an error line, and the reason when
    there is a truthy one. *)
Definition sendDeviceUpdate_catch (reason : Api.Reason) (a : AtombergFanPlatformAccessory)
  : AtombergFanPlatformAccessory :=
  let a := emit (Error "An error occurred while sending a device update.") a in
  match reason with
  | Api.Value v => if ToBoolean v then emit (Debug "JSON.stringify(error)") a else a
  | Api.AxiosErr _ | Api.Thrown _ => emit (Debug "JSON.stringify(error)") a
  end.

(** [sendDeviceUpdate(commandData)] up to the point where it waits for the
    request; when [sendCommand] rejects on the spot the [catch] runs. *)
Definition sendDeviceUpdate (commandData : AtombergFanCommandData)
    (a : AtombergFanPlatformAccessory) (w : Api.World)
  : AtombergFanPlatformAccessory * Api.World * option Thrown :=
  match validateDeviceConnectionStatus a with
  | (a, Some thrown) => (a, w, Some thrown)
  | (a, None) =>
      let a := emit (Debug "Sending command data: ") a in
      match Api.sendCommand commandData w with
      | (w, Api.Pending) => (a, w, None)
      | (w, Api.RejectedNow reason) => (sendDeviceUpdate_catch reason a, w, None)
      end
  end.

(** [sendDeviceUpdate] from the settlement of its request on. *)
Definition sendDeviceUpdate_settle (outcome : Api.AxiosResult)
    (a : AtombergFanPlatformAccessory) (w : Api.World)
  : AtombergFanPlatformAccessory * Api.World :=
  match Api.sendCommand_settle outcome w with
  | (w, Api.Fulfilled res) =>
      (if ToBoolean res then emit (Debug "Successfully sent device update for device") a else a,
       w)
  | (w, Api.Rejected reason) => (sendDeviceUpdate_catch reason a, w)
  end.

(** [setActive(value)] for the accessory of device [deviceId]; [value] is
    the number HomeKit sends (1 is ACTIVE). [fanState.power] receives the
    value itself, kept here as its truthiness. The promise of
    [sendDeviceUpdate] is not awaited. *)
Definition setActive (deviceId : string) (value : Z)
    (a : AtombergFanPlatformAccessory) (w : Api.World)
  : AtombergFanPlatformAccessory * Api.World * option Thrown :=
  match validateDeviceConnectionStatus a with
  | (a, Some thrown) => (a, w, Some thrown)
  | (a, None) =>
      let a := set_fanState (set_power (negb (value =? 0)) <$> fanState a) a in
      let a := emit (Debug "Set Characteristic Active ->") a in
      let powerState := value =? ACTIVE in
      let speed :=
        if powerState then from_option last_recorded_speed 0 (fanState a) else 0 in
      let cmdData :=
        {| cmd_device_id := deviceId;
           command := {| cmd_power := Some powerState; cmd_speed := Some speed |} |} in
      let '(a, w, _) := sendDeviceUpdate cmdData a w in
      (a, w, None)
  end.

(** [setRotationSpeed(value)]: [value / 20] is a floating-point division.
    On a multiple of 20 (the characteristic has minStep 20) it is exact and
    is the integer division here; on any other value the quotient is no
    integer, which the speed fields of the records here cannot hold: the
    result is then [None], and nothing is said about the call. The
    connection is validated before the division, whatever the value. *)
Definition setRotationSpeed (deviceId : string) (value : Z)
    (a : AtombergFanPlatformAccessory) (w : Api.World)
  : option (AtombergFanPlatformAccessory * Api.World * option Thrown) :=
  match validateDeviceConnectionStatus a with
  | (a, Some thrown) => Some (a, w, Some thrown)
  | (a, None) =>
      if value mod 20 =? 0 then
        let newSpeed := value / 20 in
        let a := set_fanState (set_last_recorded_speed newSpeed <$> fanState a) a in
        let a := emit (Debug "Set Characteristic Speed -> ") a in
        let cmdData :=
          {| cmd_device_id := deviceId;
             command := {| cmd_power := None; cmd_speed := Some newSpeed |} |} in
        let '(a, w, _) := sendDeviceUpdate cmdData a w in
        Some (a, w, None)
      else None
  end.

(** The Model characteristic the constructor sets, from [device.model]
    and [device.series] (an absent field is the empty string). *)
Definition modelName (model series : string) : string :=
  let modelName := model in
  if negb (String.eqb series "") then
    let modelName := if negb (String.eqb modelName "") then modelName +:+ " " else modelName in
    modelName +:+ series
  else if String.eqb modelName "" then "Unknown"
  else modelName.

(** The commands among the requests of a trace. *)
Definition commands (w : Api.World) : list AtombergFanCommandData :=
  omap (λ e, match e with Api.Request _ _ _ body => body | _ => None end) (Api.trace w).

End Accessory.

(** ** src/platform.ts *)

Module Platform.

Import Accessory.

Record PlatformAccessory := {
  UUID : string;
  acc_displayName : string;
  context_device : AtombergFanDevice;
  context_deviceDisplayName : option string;
  Fanv2 : option Service
}.

Inductive Effect :=
| LogInfo (msg : string)
| LogError (msg : string)
| LogDebug (msg : string)
| updatePlatformAccessories (accessory : PlatformAccessory)
| registerPlatformAccessories (accessory : PlatformAccessory)
| unregisterPlatformAccessories (accessory : PlatformAccessory).

Record AtombergFanPlatform := {
  accessories : list PlatformAccessory;
  accessoryInstances : gmap string AtombergFanPlatformAccessory;
  effects : list Effect
}.

Definition emit (e : Effect) (p : AtombergFanPlatform) : AtombergFanPlatform :=
  {| accessories := accessories p;
     accessoryInstances := accessoryInstances p;
     effects := effects p ++ [e] |}.

Definition set_accessories (l : list PlatformAccessory) (p : AtombergFanPlatform)
  : AtombergFanPlatform :=
  {| accessories := l;
     accessoryInstances := accessoryInstances p;
     effects := effects p |}.

Definition set_instance (id : string) (a : AtombergFanPlatformAccessory)
    (p : AtombergFanPlatform) : AtombergFanPlatform :=
  {| accessories := accessories p;
     accessoryInstances := <[id := a]> (accessoryInstances p);
     effects := effects p |}.

(** [configureAccessory(accessory)] *)
Definition configureAccessory (accessory : PlatformAccessory) (p : AtombergFanPlatform)
  : AtombergFanPlatform :=
  set_accessories (accessories p ++ [accessory])
    (emit (LogInfo "Loading accessory from cache:") p).

(** [dvc.device_id === id] *)
Definition is_id (id : string) (dvc : AtombergFanDeviceState) : bool :=
  match state_device_id dvc with
  | JsStr s => String.eqb s id
  | _ => false
  end.

(** [existingAccessory.context.device = device;
     existingAccessory.context.deviceDisplayName = `${device.name}`] *)
Definition set_context (device : AtombergFanDevice) (a : PlatformAccessory) : PlatformAccessory :=
  {| UUID := UUID a;
     acc_displayName := acc_displayName a;
     context_device := device;
     context_deviceDisplayName := Some (name device);
     Fanv2 := Fanv2 a |}.

Section Discovery.

(** [api.hap.uuid.generate] *)
Variable generate : string → string.

(** The body of the loop over the remote devices. [accessories.find]
    returns the first cached accessory with the UUID; writing its context
    writes the object held in [this.accessories].

    The Fanv2 service is taken by value: [Fanv2] of a cached accessory is
    the service as it was restored from the cache, and the handler built
    on the accessory continues from a copy of it. In the program the two
    are one object, so what a handler writes is seen by a handler built
    on the same accessory afterwards. The copy and the object agree as
    long as no handler has written to the service of the accessory
    before: in the first pass after the start, for devices whose UUIDs
    differ. Service values read in a later pass, or behind colliding
    UUIDs, are outside this model; registration, contexts, keys and
    [fanState] do not depend on them. *)
Definition discoverDevice (deviceStates : list AtombergFanDeviceState)
    (p : AtombergFanPlatform) (device : AtombergFanDevice) : AtombergFanPlatform :=
  let uuid := generate (device_id device) in
  let deviceState := List.find (is_id (device_id device)) deviceStates in
  match list_find (λ accessory, UUID accessory = uuid) (accessories p) with
  | Some (i, existingAccessory) =>
      let p := emit (LogInfo "Restoring existing accessory from cache.") p in
      let existingAccessory := set_context device existingAccessory in
      let p := set_accessories (<[i := existingAccessory]> (accessories p)) p in
      let p := emit (updatePlatformAccessories existingAccessory) p in
      let atombergAccessory :=
        constructor (acc_displayName existingAccessory) (Fanv2 existingAccessory) deviceState in
      set_instance (device_id device) atombergAccessory p
  | None =>
      let p := emit (LogInfo "Adding new accessory:") p in
      let accessory :=
        {| UUID := uuid;
           acc_displayName := name device;
           context_device := device;
           context_deviceDisplayName := None;
           Fanv2 := None |} in
      let atombergAccessory := constructor (name device) None deviceState in
      let p := set_instance (device_id device) atombergAccessory p in
      emit (registerPlatformAccessories accessory) p
  end.

Definition is_device (deviceId : string) (device : AtombergFanDevice) : bool :=
  String.eqb (device_id device) deviceId.

(** The body of the loop over the cached accessories. *)
Definition removeIfGone (devices : list AtombergFanDevice)
    (p : AtombergFanPlatform) (cachedAccessory : PlatformAccessory) : AtombergFanPlatform :=
  let deviceId := device_id (context_device cachedAccessory) in
  match List.find (is_device deviceId) devices with
  | Some _ => p
  | None =>
      let p := emit (LogInfo "Removing accessory because it does not exist on the account anymore.") p in
      emit (unregisterPlatformAccessories cachedAccessory) p
  end.

Definition discovery_failed (p : AtombergFanPlatform) : AtombergFanPlatform :=
  let p := emit (LogError "An error occurred during device discovery. Turn on debug mode for more information.") p in
  emit (LogDebug "JSON.stringify(error)") p.

(** [discoverDevices()], given how the two awaited calls settle;
    [getDeviceState] is only called when [devices] is truthy. [None] for
    [devices] is [undefined]: the first loop is skipped and [devices.find]
    throws in the second one as soon as there is a cached accessory. *)
Definition discoverDevices
    (getAllDevices : Api.Settled (option (list AtombergFanDevice)))
    (getDeviceState : Api.Settled (list AtombergFanDeviceState))
    (p : AtombergFanPlatform) : AtombergFanPlatform :=
  let p := emit (LogInfo "Discovering devices on Atomberg platform.") p in
  match getAllDevices with
  | Api.Rejected _ => discovery_failed p
  | Api.Fulfilled None =>
      let p := emit (LogInfo "No devices found on Atomberg platform.") p in
      match accessories p with
      | [] => p
      | _ :: _ => discovery_failed p
      end
  | Api.Fulfilled (Some devices) =>
      match getDeviceState with
      | Api.Rejected _ => discovery_failed p
      | Api.Fulfilled deviceStates =>
          let p := foldl (discoverDevice deviceStates) p devices in
          foldl (removeIfGone devices) p (accessories p)
      end
  end.

(** The handlers chained on [this.atombergApi.login()] in the
    [didFinishLaunching] callback. *)
Definition afterLogin (login : Api.Settled JsValue)
    (getAllDevices : Api.Settled (option (list AtombergFanDevice)))
    (getDeviceState : Api.Settled (list AtombergFanDeviceState))
    (p : AtombergFanPlatform) : AtombergFanPlatform :=
  match login with
  | Api.Fulfilled res =>
      if negb (ToBoolean res) then
        emit (LogError "Login failed. Skipping device discovery.") p
      else
        let p := emit (LogInfo "Successfully logged in.") p in
        discoverDevices getAllDevices getDeviceState p
  | Api.Rejected error =>
      let p := emit (LogError "Login failed. Skipping device discovery.") p in
      emit (LogDebug "error") p
  end.

End Discovery.

(** [handleStateChange(state)]: the map is keyed by strings, so only a
    string [device_id] can find an instance. *)
Definition handleStateChange (state : AtombergFanDeviceState) (p : AtombergFanPlatform)
  : AtombergFanPlatform :=
  match state_device_id state with
  | JsStr id =>
      match accessoryInstances p !! id with
      | Some accessoryInstance =>
          let p := emit (LogDebug "Updating state for accessory:") p in
          set_instance id (refreshDeviceStatus (Some state) accessoryInstance) p
      | None => p
      end
  | _ => p
  end.

(** The accessories a pass registered, updated and unregistered. *)
Definition registered (es : list Effect) : list PlatformAccessory :=
  omap (λ e, match e with registerPlatformAccessories a => Some a | _ => None end) es.

Definition updated (es : list Effect) : list PlatformAccessory :=
  omap (λ e, match e with updatePlatformAccessories a => Some a | _ => None end) es.

Definition unregistered (es : list Effect) : list PlatformAccessory :=
  omap (λ e, match e with unregisterPlatformAccessories a => Some a | _ => None end) es.

(** Device identifiers of a list of accessories and of an inventory. *)
Definition ids (l : list PlatformAccessory) : gset string :=
  list_to_set ((λ a, device_id (context_device a)) <$> l).

Definition inventory (devices : list AtombergFanDevice) : gset string :=
  list_to_set (device_id <$> devices).

(** The cache is keyed by device identifier: the UUID of every cached
    accessory is the one generated from the identifier in its context. *)
Definition keyed (generate : string → string) (l : list PlatformAccessory) : Prop :=
  ∀ a, a ∈ l → UUID a = generate (device_id (context_device a)).

(** The [didFinishLaunching] callback up to the call of [login()]: both
    configuration fields must be set, else the start is aborted. *)
Definition didFinishLaunching (p : AtombergFanPlatform) (w : Api.World)
  : AtombergFanPlatform * Api.World :=
  let p := emit (LogDebug "Executed didFinishLaunching callback") p in
  if negb (ToBoolean (JsStr (Api.apiKey (Api.config w)))) then
    (emit (LogError "apiKey is not configured - aborting plugin start.") p, w)
  else if negb (ToBoolean (JsStr (Api.refreshToken (Api.config w)))) then
    (emit (LogError "refreshToken is not configured - aborting plugin start.") p, w)
  else
    let p := emit (LogInfo "Attempting to log into Atomberg platform.") p in
    let w := Api.login_request w in
    (emit (LogDebug "Finished initialising platform") p, w).

(** Examples: a UUID generator that is visibly injective, a device and
    the accessory cached for it. *)
Definition example_generate (id : string) : string := "uuid-" +:+ id.

Definition example_device (id : string) : AtombergFanDevice :=
  {| device_id := id; color := "white"; series := "R1"; model := "renesa";
     room := "hall"; name := id; metadata_ssid := "home" |}.

Definition example_cached (id : string) : PlatformAccessory :=
  {| UUID := example_generate id;
     acc_displayName := id;
     context_device := example_device id;
     context_deviceDisplayName := None;
     Fanv2 := None |}.

End Platform.

(** * Properties *)

Import Broadcast.

(** ** Signed 32-bit arithmetic of the bitwise operators *)

Lemma wrap32_range z : - two31 <= wrap32 z < two31.
Proof.
  unfold wrap32, two31, two32.
  pose proof (Z.mod_pos_bound (z + 2147483648) 4294967296). lia.
Qed.

Lemma wrap32_small z : - two31 <= z < two31 -> wrap32 z = z.
Proof.
  unfold wrap32, two31, two32. intros H.
  rewrite Z.mod_small; lia.
Qed.

Lemma wrap32_mod z : wrap32 z mod two32 = z mod two32.
Proof.
  unfold wrap32, two31, two32.
  rewrite Zminus_mod, Zmod_mod, <- Zminus_mod. f_equal. lia.
Qed.

Lemma ToInt32_int z : ToInt32 (int z) = wrap32 z.
Proof. unfold ToInt32, int, inject_Z. simpl. now rewrite Z.quot_1_r. Qed.

Lemma land_mod_low m x n :
  0 <= n -> 0 <= m < 2 ^ n -> Z.land m (x mod 2 ^ n) = Z.land m x.
Proof.
  intros Hn Hm. apply Z.bits_inj'. intros i Hi.
  rewrite !Z.land_spec.
  destruct (Z_lt_ge_dec i n) as [Hlt | Hge].
  - now rewrite Z.mod_pow2_bits_low.
  - assert (Z.testbit m i = false) as ->; [|reflexivity].
    destruct (Z.eq_dec m 0) as [-> | Hne]; [apply Z.bits_0|].
    apply Z.bits_above_log2; [lia|].
    apply Z.log2_lt_pow2; [lia|].
    apply Z.lt_le_trans with (2 ^ n); [lia|].
    apply Z.pow_le_mono_r; lia.
Qed.

Lemma land_wrap32 m x : 0 <= m < two32 -> Z.land m (wrap32 x) = Z.land m x.
Proof.
  intros Hm. change two32 with (2 ^ 32) in *.
  rewrite <- (land_mod_low m (wrap32 x) 32), <- (land_mod_low m x 32) by lia.
  change (2 ^ 32) with two32. now rewrite wrap32_mod.
Qed.

Lemma land_pow2 n c :
  0 <= n -> Z.land (2 ^ n) c = if Z.testbit c n then 2 ^ n else 0.
Proof.
  intros Hn. apply Z.bits_inj'. intros i Hi.
  rewrite Z.land_spec, Z.pow2_bits_eqb by lia.
  destruct (Z.eqb_spec n i) as [-> | Hne].
  - destruct (Z.testbit c i) eqn:E; simpl.
    + now rewrite Z.pow2_bits_true.
    + now rewrite Z.bits_0.
  - simpl. destruct (Z.testbit c n).
    + rewrite Z.pow2_bits_false; auto.
    + now rewrite Z.bits_0.
Qed.

Lemma bitand_int m code :
  0 <= m < two31 -> bitand (int m) code = Z.land m (ToInt32 code).
Proof.
  intros Hm. unfold bitand. rewrite ToInt32_int, wrap32_small; [reflexivity|].
  unfold two31 in *. lia.
Qed.

Lemma bitand_int_int m c :
  0 <= m < two31 -> bitand (int m) (int c) = Z.land m c.
Proof.
  intros Hm. rewrite bitand_int, ToInt32_int by assumption.
  apply land_wrap32. unfold two31, two32 in *. lia.
Qed.

Lemma flag_bit n code :
  0 <= n < 31 ->
  (0 <? bitand (int (2 ^ n)) code) = Z.testbit (ToInt32 code) n.
Proof.
  intros Hn.
  assert (0 < 2 ^ n < two31) as Hp.
  { split; [apply Z.pow_pos_nonneg; lia|].
    change two31 with (2 ^ 31). apply Z.pow_lt_mono_r; lia. }
  rewrite bitand_int, land_pow2 by lia.
  destruct (Z.testbit (ToInt32 code) n).
  - apply Z.ltb_lt. lia.
  - reflexivity.
Qed.

Lemma testbit_wrap32 c n : 0 <= n < 32 -> Z.testbit (wrap32 c) n = Z.testbit c n.
Proof.
  intros Hn.
  rewrite <- (Z.mod_pow2_bits_low (wrap32 c) 32 n), <- (Z.mod_pow2_bits_low c 32 n) by lia.
  change (2 ^ 32) with two32. now rewrite wrap32_mod.
Qed.

Lemma land_neg_pow2 n z : 0 <= n -> Z.land (- 2 ^ n) z = z / 2 ^ n * 2 ^ n.
Proof.
  intros Hn.
  replace (- 2 ^ n) with (Z.lnot (Z.ones n)).
  - rewrite Z.land_comm, <- Z.ldiff_land, Z.ldiff_ones_r by lia.
    now rewrite Z.shiftl_mul_pow2, Z.shiftr_div_pow2 by lia.
  - rewrite Z.ones_equiv. unfold Z.lnot. lia.
Qed.

Lemma field_shift m n z :
  0 <= n -> 0 <= m ->
  Z.land (m * 2 ^ n) z / 2 ^ n = Z.land m (z / 2 ^ n).
Proof.
  intros Hn Hm.
  rewrite <- !Z.shiftr_div_pow2, Z.shiftr_land by lia.
  rewrite <- Z.shiftl_mul_pow2, Z.shiftr_shiftl_l by lia.
  now rewrite Z.sub_diag, Z.shiftl_0_r.
Qed.

Lemma field_exact m n z :
  0 <= n -> 0 <= m -> Z.land (m * 2 ^ n) z mod 2 ^ n = 0.
Proof.
  intros Hn Hm.
  rewrite <- Z.land_ones by lia.
  rewrite <- Z.land_assoc, (Z.land_comm z), Z.land_assoc.
  replace (Z.land (m * 2 ^ n) (Z.ones n)) with 0; [apply Z.land_0_l|].
  symmetry. apply Z.bits_inj'. intros i Hi.
  rewrite Z.land_spec, Z.bits_0, <- Z.shiftl_mul_pow2 by lia.
  destruct (Z_lt_ge_dec i n).
  - now rewrite Z.shiftl_spec_low.
  - rewrite Z.ones_spec_high by lia. apply andb_false_r.
Qed.

Lemma flag_int n c :
  0 <= n < 31 -> (0 <? bitand (int (2 ^ n)) (int c)) = Z.testbit c n.
Proof.
  intros Hn. rewrite flag_bit, ToInt32_int by assumption.
  apply testbit_wrap32. lia.
Qed.

Lemma decodeState_int device_id c :
  decodeState device_id (int c) =
  {| state_device_id := device_id;
     is_online := true;
     power := Z.testbit c 4;
     led := Z.testbit c 5;
     sleep_mode := Z.testbit c 7;
     last_recorded_speed := c mod 8;
     timer_hours := (c / 65536) mod 16;
     timer_time_elapsed_mins := wrap32 c / 16777216 * 4;
     ts_epoch_seconds := None;
     last_recorded_brightness := (c / 256) mod 128;
     last_recorded_color := colorMode (Z.testbit c 3) (Z.testbit c 15) |}.
Proof.
  unfold decodeState, colorMode.
  change 0x10 with (2 ^ 4). change 0x20 with (2 ^ 5). change 0x80 with (2 ^ 7).
  change 0x08 with (2 ^ 3). change 0x8000 with (2 ^ 15).
  rewrite !flag_int by lia.
  f_equal.
  - rewrite bitand_int_int by (unfold two31; lia).
    rewrite Z.land_comm. change 7 with (Z.ones 3). now rewrite Z.land_ones by lia.
  - rewrite bitand_int_int by (unfold two31; lia).
    change 983040 with (15 * 2 ^ 16). change 65536 with (2 ^ 16).
    rewrite field_shift by lia.
    rewrite Z.land_comm. change 15 with (Z.ones 4). now rewrite Z.land_ones by lia.
  - unfold bitand. rewrite !ToInt32_int.
    change (wrap32 4278190080) with (- 2 ^ 24).
    rewrite land_neg_pow2 by lia.
    change 16777216 with (2 ^ 24).
    rewrite <- Z.mul_assoc, (Z.mul_comm (2 ^ 24) 4), Z.mul_assoc.
    now rewrite Z.div_mul by lia.
  - rewrite bitand_int_int by (unfold two31; lia).
    change 32512 with (127 * 2 ^ 8). change 256 with (2 ^ 8).
    rewrite field_shift by lia.
    rewrite Z.land_comm. change 127 with (Z.ones 7). now rewrite Z.land_ones by lia.
Qed.

Lemma testbit_odd_div c n : 0 <= n -> Z.testbit c n = Z.odd (c / 2 ^ n).
Proof.
  intros Hn. rewrite <- Z.shiftr_div_pow2 by lia.
  rewrite <- Z.bit0_odd, Z.shiftr_spec by lia. f_equal.
Qed.

Lemma odd_b2z b m : Z.odd (Z.b2z b + 2 * m) = b.
Proof. rewrite Z.odd_add_mul_2. now destruct b. Qed.

Lemma encode_decode device_id pw ld sl speed timer elapsed brightness cl wm :
  0 <= speed <= 7 -> 0 <= timer <= 15 -> 0 <= elapsed <= 255 -> 0 <= brightness <= 127 ->
  let s := decodeState device_id
             (int (encodeState pw ld sl speed timer elapsed brightness cl wm)) in
  power s = pw /\ led s = ld /\ sleep_mode s = sl /\
  last_recorded_speed s = speed /\ timer_hours s = timer /\
  last_recorded_brightness s = brightness /\
  last_recorded_color s = colorMode cl wm.
Proof.
  intros Hs Ht He Hb. cbv zeta. rewrite decodeState_int. cbn [Model.power Model.led sleep_mode last_recorded_speed timer_hours last_recorded_brightness last_recorded_color].
  set (c := encodeState _ _ _ _ _ _ _ _ _).
  assert (Hbit : forall n b m, 0 <= n -> c / 2 ^ n = Z.b2z b + 2 * m -> Z.testbit c n = b).
  { intros n b m Hn E. rewrite testbit_odd_div, E by lia. apply odd_b2z. }
  assert (Hp: 0 <= Z.b2z pw <= 1) by (destruct pw; simpl; lia).
  assert (Hl: 0 <= Z.b2z ld <= 1) by (destruct ld; simpl; lia).
  assert (Hsl: 0 <= Z.b2z sl <= 1) by (destruct sl; simpl; lia).
  assert (Hc: 0 <= Z.b2z cl <= 1) by (destruct cl; simpl; lia).
  assert (Hw: 0 <= Z.b2z wm <= 1) by (destruct wm; simpl; lia).
  assert (E4 : Z.testbit c 4 = pw).
  { apply (Hbit 4 pw (Z.b2z ld + 4 * Z.b2z sl + 8 * brightness + 1024 * Z.b2z wm + 2048 * timer + 524288 * elapsed)); [lia|].
    subst c; unfold encodeState. change (2 ^ 4) with 16. Z.div_mod_to_equations. lia. }
  assert (E5 : Z.testbit c 5 = ld).
  { apply (Hbit 5 ld (2 * Z.b2z sl + 4 * brightness + 512 * Z.b2z wm + 1024 * timer + 262144 * elapsed)); [lia|].
    subst c; unfold encodeState. change (2 ^ 5) with 32. Z.div_mod_to_equations. lia. }
  assert (E7 : Z.testbit c 7 = sl).
  { apply (Hbit 7 sl (brightness + 128 * Z.b2z wm + 256 * timer + 65536 * elapsed)); [lia|].
    subst c; unfold encodeState. change (2 ^ 7) with 128. Z.div_mod_to_equations. lia. }
  assert (E3 : Z.testbit c 3 = cl).
  { apply (Hbit 3 cl (Z.b2z pw + 2 * Z.b2z ld + 8 * Z.b2z sl + 16 * brightness + 2048 * Z.b2z wm + 4096 * timer + 1048576 * elapsed)); [lia|].
    subst c; unfold encodeState. change (2 ^ 3) with 8. Z.div_mod_to_equations. lia. }
  assert (E15 : Z.testbit c 15 = wm).
  { apply (Hbit 15 wm (timer + 256 * elapsed)); [lia|].
    subst c; unfold encodeState. change (2 ^ 15) with 32768. Z.div_mod_to_equations. lia. }
  rewrite E4, E5, E7, E3, E15.
  repeat split.
  - subst c; unfold encodeState. Z.div_mod_to_equations. lia.
  - subst c; unfold encodeState. Z.div_mod_to_equations. lia.
  - subst c; unfold encodeState. Z.div_mod_to_equations. lia.
Qed.

(** The three divisions of [parseMessage] are exact, so the quotients of
    the floating-point divisions are the integer quotients. *)
Lemma fanTimer_exact code : bitand (int 0x0F0000) code mod 65536 = 0.
Proof.
  rewrite bitand_int by (unfold two31; lia).
  change 0x0F0000 with (15 * 2 ^ 16). change 65536 with (2 ^ 16).
  apply field_exact; lia.
Qed.

Lemma brightness_exact code : bitand (int 0x7F00) code mod 256 = 0.
Proof.
  rewrite bitand_int by (unfold two31; lia).
  change 0x7F00 with (127 * 2 ^ 8). change 256 with (2 ^ 8).
  apply field_exact; lia.
Qed.

Lemma fanTimerElapsedMins_exact code :
  (bitand (int 0xFF000000) code * 4) mod 16777216 = 0.
Proof.
  unfold bitand. rewrite ToInt32_int.
  change (wrap32 4278190080) with (- 2 ^ 24).
  rewrite land_neg_pow2 by lia. change 16777216 with (2 ^ 24).
  rewrite <- Z.mul_assoc, (Z.mul_comm (2 ^ 24) 4), Z.mul_assoc.
  apply Z.mod_mul. lia.
Qed.

(** The speed is the low three bits of the code, whatever the code is. *)
Lemma speed_three_bits device_id stateCode :
  last_recorded_speed (decodeState device_id stateCode) = ToInt32 stateCode mod 8.
Proof.
  unfold decodeState; cbn [last_recorded_speed].
  rewrite bitand_int by (unfold two31; lia).
  rewrite Z.land_comm. change 7 with (Z.ones 3). now rewrite Z.land_ones by lia.
Qed.

(** The elapsed minutes are four times the signed top byte. *)
Lemma elapsed_signed_top_byte device_id c :
  timer_time_elapsed_mins (decodeState device_id (int c)) = wrap32 c / 16777216 * 4.
Proof. now rewrite decodeState_int. Qed.

(** Below 2^31 the top byte is read as the protocol table says. *)
Lemma elapsed_below_two31 device_id c :
  0 <= c < two31 ->
  timer_time_elapsed_mins (decodeState device_id (int c)) = c / 16777216 * 4 /\
  0 <= timer_time_elapsed_mins (decodeState device_id (int c)) <= 508.
Proof.
  intros Hc. rewrite elapsed_signed_top_byte, wrap32_small by (unfold two31 in *; lia).
  unfold two31 in Hc. split; [reflexivity|].
  Z.div_mod_to_equations. lia.
Qed.

(** ** The broadcast decoder *)

Section ListenerFacts.

Variable Buffer_toString : list Byte.byte → string.
Variable JSON_parse : string → Completion JsValue.
Variable StringToNumber : string → Number.

(** A state that comes out of the [try] block was built by [decodeState]. *)
Lemma parseMessage_try_decodes message state :
  parseMessage_try Buffer_toString JSON_parse StringToNumber message = Normal state →
  ∃ device_id stateCode, state = decodeState device_id stateCode.
Proof.
  unfold Broadcast.parseMessage_try.
  destruct (JSON_parse _) as [jsonMessage|]; [cbn [bind]|discriminate].
  destruct (Get jsonMessage "state_string") as [state_string|]; [cbn [bind]|discriminate].
  destruct (call_split state_string) as [pieces|]; [cbn [bind]|discriminate].
  destruct (Get jsonMessage "device_id") as [device_id|]; [cbn [bind]|discriminate].
  intros [= <-]. eauto.
Qed.

(** The payload the protocol describes is decoded: an object with a
    string [state_string] gives the state of its first field. *)
Lemma parseMessage_object message props state_string :
  JSON_parse (Buffer_toString (Buffer_from_hex (Buffer_toString message)))
    = Normal (JsObj props) →
  assoc "state_string" props = JsStr state_string →
  parseMessage Buffer_toString JSON_parse StringToNumber message =
    ([], Normal (Some (decodeState (assoc "device_id" props)
                         (ToNumber StringToNumber (first (split_comma state_string)))))).
Proof.
  intros Hparse Hstate. unfold Broadcast.parseMessage, Broadcast.parseMessage_try.
  rewrite Hparse. cbn [bind Get]. rewrite Hstate. reflexivity.
Qed.

(** [parseMessage] completes normally, in one of two ways. *)
Lemma parseMessage_cases message :
  (∃ device_id stateCode,
      parseMessage Buffer_toString JSON_parse StringToNumber message
        = ([], Normal (Some (decodeState device_id stateCode)))) ∨
  (∃ error,
      parseMessage Buffer_toString JSON_parse StringToNumber message
        = ([LogError "Error parsing broadcast message: " error], Normal None)).
Proof.
  unfold Broadcast.parseMessage.
  destruct (parseMessage_try Buffer_toString JSON_parse StringToNumber message)
    as [state|error] eqn:Htry.
  - left. destruct (parseMessage_try_decodes _ _ Htry) as (device_id & stateCode & ->).
    eauto.
  - right. eauto.
Qed.

(** C3. Broadcast decoding is total and deterministic: on every datagram
    [parseMessage] completes normally, either with a state built by
    [decodeState] and no log line, or with [null] and one error line;
    it never throws to its caller, [onMessage] completes normally as
    well, and equal datagrams give equal results. *)
Theorem parseMessage_total_deterministic (message : list Byte.byte) :
  ((∃ device_id stateCode,
      parseMessage Buffer_toString JSON_parse StringToNumber message
        = ([], Normal (Some (decodeState device_id stateCode)))) ∨
   (∃ error,
      parseMessage Buffer_toString JSON_parse StringToNumber message
        = ([LogError "Error parsing broadcast message: " error], Normal None))) ∧
  (∀ remote,
     snd (onMessage Buffer_toString JSON_parse StringToNumber message remote) = Normal tt) ∧
  (∀ message', message' = message →
     parseMessage Buffer_toString JSON_parse StringToNumber message'
       = parseMessage Buffer_toString JSON_parse StringToNumber message).
Proof.
  pose proof (parseMessage_cases message) as Hparse.
  split; [exact Hparse|split].
  - intros remote. unfold Broadcast.onMessage.
    destruct (100 <? size remote); [|reflexivity].
    destruct Hparse as [(d & c & ->) | (e & ->)]; reflexivity.
  - intros message' ->. reflexivity.
Qed.

(** C5, as the code has it. Every state the decoder produces has a speed in
    [0, 7]: the raw three-bit field, for whatever state code, and hence for
    whatever datagram is decoded. *)
Theorem decoded_speed_range (message : list Byte.byte) :
  (∀ device_id stateCode,
     0 <= last_recorded_speed (decodeState device_id stateCode) <= 7) ∧
  match snd (parseMessage Buffer_toString JSON_parse StringToNumber message) with
  | Normal (Some state) => 0 <= last_recorded_speed state <= 7
  | Normal None => True
  | Throw _ => False
  end.
Proof.
  assert (Hrange : ∀ device_id stateCode,
             0 <= last_recorded_speed (decodeState device_id stateCode) <= 7).
  { intros device_id stateCode. rewrite speed_three_bits.
    pose proof (Z.mod_pos_bound (ToInt32 stateCode) 8). lia. }
  split; [exact Hrange|].
  destruct (parseMessage_cases message) as [(d & c & ->) | (e & ->)];
    cbn [snd]; [apply Hrange | exact I].
Qed.

End ListenerFacts.

(** The empty datagram, with the built-ins as they act on it: the empty
    buffer is the empty string, which [JSON.parse] refuses. *)
Lemma parseMessage_total_deterministic_witness :
  let Buffer_toString := λ _ : list Byte.byte, "" in
  let JSON_parse := λ _ : string,
    Throw (A := JsValue) (SyntaxError "Unexpected end of JSON input") in
  let StringToNumber := λ _ : string, NaN in
  parseMessage Buffer_toString JSON_parse StringToNumber []
    = parseMessage Buffer_toString JSON_parse StringToNumber [].
Proof.
  intros Buffer_toString JSON_parse StringToNumber.
  apply (proj2 (proj2 (parseMessage_total_deterministic
                         Buffer_toString JSON_parse StringToNumber []))).
  reflexivity.
Defined.


(** C4. Bitfield round trip. For every integer state code the decoder reads
    power from bit 0x10, led from 0x20, sleep_mode from 0x80, the speed from
    the low three bits and the colour mode from bits 0x08 (cool) and 0x8000
    (warm); and a code built from chosen fields decodes to those fields. *)
Theorem bitfield_roundtrip :
  (∀ device_id c,
     let s := decodeState device_id (int c) in
     power s = Z.testbit c 4 ∧ led s = Z.testbit c 5 ∧ sleep_mode s = Z.testbit c 7 ∧
     last_recorded_speed s = Z.land c 0x07 ∧
     last_recorded_color s = colorMode (Z.testbit c 3) (Z.testbit c 15)) ∧
  (∀ device_id pw ld sl speed timer elapsed brightness cl wm,
     0 <= speed <= 7 → 0 <= timer <= 15 → 0 <= elapsed <= 255 → 0 <= brightness <= 127 →
     let s := decodeState device_id
                (int (encodeState pw ld sl speed timer elapsed brightness cl wm)) in
     power s = pw ∧ led s = ld ∧ sleep_mode s = sl ∧ last_recorded_speed s = speed ∧
     last_recorded_color s = colorMode cl wm).
Proof.
  split.
  - intros device_id c. cbv zeta. rewrite decodeState_int.
    cbn [power led sleep_mode last_recorded_speed last_recorded_color].
    repeat split.
    change 7 with (Z.ones 3). now rewrite Z.land_ones by lia.
  - intros device_id pw ld sl speed timer elapsed brightness cl wm Hs Ht He Hb.
    destruct (encode_decode device_id pw ld sl speed timer elapsed brightness cl wm
                Hs Ht He Hb) as (? & ? & ? & ? & _ & _ & ?).
    cbv zeta. auto.
Qed.

(** The example of the specification: bits 0x10 and speed 3. *)
Lemma bitfield_roundtrip_witness :
  let s := decodeState (JsStr "fan")
             (int (encodeState true false false 3 0 0 0 true false)) in
  power s = true ∧ led s = false ∧ sleep_mode s = false ∧ last_recorded_speed s = 3 ∧
  last_recorded_color s = colorMode true false.
Proof.
  apply (proj2 bitfield_roundtrip (JsStr "fan") true false false 3 0 0 0 true false); lia.
Defined.

(** C5 as stated fails: the state code 7 decodes to speed 7. *)
Lemma speed_seven :
  ¬ (0 <= last_recorded_speed (decodeState (JsStr "fan") (int 7)) <= 6).
Proof. vm_compute. intros [_ H]. apply H. reflexivity. Qed.

(** C6 at a state code with bit 31 set: [0xFF000000 & stateCode] is a
    negative 32-bit integer, and so are the elapsed minutes, where the
    top byte 0x80 read as the protocol table says gives 128 * 4 = 512. *)
Theorem elapsed_minutes_negative :
  timer_time_elapsed_mins (decodeState (JsStr "fan") (int 0x80000000)) = -512 ∧
  0x80000000 / 16777216 * 4 = 512.
Proof. split; reflexivity. Qed.

(** ** The session manager *)

Import Api.

Lemma filter_all {A} (P : A → Prop) `{!∀ x, Decision (P x)} (l : list A) :
  (∀ x, x ∈ l → P x) → filter P l = l.
Proof.
  induction l as [|x l IH]; intros HP; [reflexivity|].
  rewrite filter_cons_True by (apply HP; left).
  f_equal. apply IH. intros y Hy. apply HP. now right.
Qed.

Lemma timers_emit e w : timers (emit e w) = timers w.
Proof. reflexivity. Qed.

Lemma clearTimeouts_timers l w :
  timers (foldl (λ w timeoutId, clearTimeout timeoutId w) w l)
    = filter (λ t, timer_id t ∉ l) (timers w).
Proof.
  revert w. induction l as [|id l IH]; intros w; cbn [foldl].
  - symmetry. apply filter_all. intros t _. apply not_elem_of_nil.
  - rewrite IH. cbn [clearTimeout set_timers timers].
    rewrite list_filter_filter. apply list_filter_iff.
    intros t. rewrite not_elem_of_cons. tauto.
Qed.

Lemma clearTimeouts_record l w :
  let w' := foldl (λ w timeoutId, clearTimeout timeoutId w) w l in
  _loginRefreshInterval w' = _loginRefreshInterval w ∧
  _loginRetryTimeouts w' = _loginRetryTimeouts w ∧
  accessToken w' = accessToken w ∧ next_timer w' = next_timer w.
Proof.
  revert w. induction l as [|id l IH]; intros w; cbn [foldl]; [auto|].
  destruct (IH (clearTimeout id w)) as (-> & -> & -> & ->). auto.
Qed.

Lemma login_request_timers w :
  timers (login_request w)
    = filter (λ t, _loginRefreshInterval w ≠ Some (timer_id t))
        (filter (λ t, timer_id t ∉ _loginRetryTimeouts w) (timers w)).
Proof.
  unfold login_request. rewrite timers_emit.
  destruct (clearTimeouts_record (_loginRetryTimeouts w) w) as (-> & _).
  destruct (_loginRefreshInterval w) as [id|]; cbn [clearInterval].
  - cbn [clearTimeout set_timers timers]. rewrite clearTimeouts_timers.
    apply list_filter_iff. intros t. split; congruence.
  - rewrite clearTimeouts_timers. symmetry. apply filter_all. intros t _. discriminate.
Qed.

(** Every timer on record is cancelled before the request is sent. *)
Lemma login_request_cancels w t :
  t ∈ timers (login_request w) →
  (timer_id t ∉ _loginRetryTimeouts w) ∧ (_loginRefreshInterval w ≠ Some (timer_id t)).
Proof.
  rewrite login_request_timers, !list_elem_of_filter. tauto.
Qed.

Lemma login_request_clears w : on_record w → timers (login_request w) = [].
Proof.
  intros Hrec. destruct (timers (login_request w)) as [|t ts] eqn:E; [reflexivity|].
  assert (Ht : t ∈ timers (login_request w)) by (rewrite E; left).
  pose proof (login_request_cancels w t Ht) as [Hto Hint].
  rewrite login_request_timers, !list_elem_of_filter in Ht.
  destruct Ht as (_ & _ & Ht). specialize (Hrec t Ht).
  destruct (timer_kind t); congruence.
Qed.

Lemma login_request_record w :
  _loginRefreshInterval (login_request w) = _loginRefreshInterval w ∧
  _loginRetryTimeouts (login_request w) = _loginRetryTimeouts w ∧
  accessToken (login_request w) = accessToken w ∧
  next_timer (login_request w) = next_timer w.
Proof.
  unfold login_request.
  destruct (clearTimeouts_record (_loginRetryTimeouts w) w) as (E1 & E2 & E3 & E4).
  cbv zeta in *. rewrite E1.
  destruct (_loginRefreshInterval w); cbn; auto.
Qed.

(** What a retry does to the instance: the token is left alone and one
    timeout with the fixed delay is added, on record. *)
Lemma retryLogin_spec error w :
  let w' := retryLogin error w in
  accessToken w' = accessToken w ∧
  timers w' = timers w ++ [{| timer_id := next_timer w; timer_kind := Timeout;
                              timer_delay := LOGIN_RETRY_DELAY |}] ∧
  _loginRetryTimeouts w' = _loginRetryTimeouts w ++ [next_timer w] ∧
  _loginRefreshInterval w' = _loginRefreshInterval w.
Proof. cbv zeta. unfold retryLogin. cbn. auto. Qed.

Lemma login_settle_outcome result w : LoginOutcome w (fst (login_settle result w)).
Proof.
  destruct result as [data|error]; cbn [login_settle].
  - unfold login_then.
    destruct (Get data "status") as [status|e]; cbn [bind].
    + destruct (is_not_Success status).
      * destruct (Get data "message") as [message|e]; cbn [bind fst].
        -- eapply Retried; cbn; eauto.
        -- eapply Retried; cbn; eauto.
      * destruct (Get data "message") as [message|e]; cbn [bind fst].
        -- destruct (Get message "access_token") as [token|e]; cbn [bind fst].
           ++ eapply Refreshed; cbn; eauto.
           ++ eapply Retried; cbn; eauto.
        -- eapply Retried; cbn; eauto.
    + eapply Retried; cbn; eauto.
  - eapply Retried; cbn; eauto.
Qed.

(** A login that runs alone (its request settles before any other call)
    leaves exactly one timer active, and it is on record. *)
Lemma login_alone_single_timer result w :
  on_record w →
  let w' := fst (login result w) in
  length (timers w') = 1%nat ∧ on_record w'.
Proof.
  intros Hrec. cbv zeta. unfold login.
  pose proof (login_request_clears w Hrec) as Hclear.
  destruct (login_settle_outcome result (login_request w))
    as [token _ Ht Hi _ | token _ _ Ht Hr _];
    rewrite Hclear in Ht; cbn [app] in Ht.
  - split; [now rewrite Ht|].
    intros t. rewrite Ht, list_elem_of_singleton. intros ->. exact Hi.
  - split; [now rewrite Ht|].
    intros t. rewrite Ht, list_elem_of_singleton. intros ->. cbn.
    rewrite Hr. apply elem_of_app. right. left.
Qed.

Lemma logins_alone results : ∀ w,
  on_record w →
  on_record (foldl (λ w result, fst (login result w)) w results) ∧
  (results ≠ [] → length (timers (foldl (λ w result, fst (login result w)) w results)) = 1%nat).
Proof.
  induction results as [|r rs IH] using rev_ind; intros w Hrec.
  - split; [exact Hrec | congruence].
  - rewrite foldl_app. cbn [foldl].
    destruct (IH w Hrec) as [Hrec' _].
    destruct (login_alone_single_timer r _ Hrec') as [Hlen Hrec''].
    split; auto.
Qed.

(** C1, where the code departs from it. Two logins in flight at once:
    when both succeed two refresh intervals are active, only the second on
    record, and a later login that runs alone still leaves two; when both
    fail two retry timeouts are active. *)
Theorem concurrent_logins_leak_timers :
  let both_succeed :=
    run [CallLogin; CallLogin; SettleLogin (success "a"); SettleLogin (success "b")]
        (start example_config) in
  let both_fail :=
    run [CallLogin; CallLogin; SettleLogin (Failure network_error);
         SettleLogin (Failure network_error)] (start example_config) in
  length (refresh_intervals (world both_succeed)) = 2%nat ∧
  length (retry_timeouts (world both_fail)) = 2%nat ∧
  length (refresh_intervals
            (world (run [CallLogin; SettleLogin (success "c")] both_succeed))) = 2%nat.
Proof. repeat split; vm_compute; reflexivity. Qed.

(** C2, where the code departs from it. A login that fails in transport
    after an earlier success schedules its one retry and leaves the stored
    token in place: only the [.then] branch clears it. *)
Theorem transport_failure_keeps_token :
  let w := fst (login (success "token") (constructor example_config)) in
  let w' := fst (login (Failure network_error) w) in
  accessToken w = JsStr "token" ∧
  accessToken w' = JsStr "token" ∧
  accessToken w' ≠ JsStr "" ∧
  timers w' = [{| timer_id := 1; timer_kind := Timeout; timer_delay := LOGIN_RETRY_DELAY |}].
Proof. cbv zeta. vm_compute. repeat split; try reflexivity. discriminate. Qed.

Lemma requests_emit_log e w : is_request e = false → requests (emit e w) = requests w.
Proof.
  intros He. unfold requests. cbn [emit trace].
  rewrite List.filter_app. cbn [List.filter]. rewrite He. apply app_nil_r.
Qed.

(** C9. With an empty stored token each of [getAllDevices],
    [getDeviceState] and [sendCommand] rejects at once with the
    "No auth token available" message and sends no request. *)
Theorem unauthenticated_rejects (w : World) (data : AtombergFanCommandData) :
  accessToken w = JsStr "" →
  (snd (getAllDevices w) = RejectedNow (Value (JsStr NO_AUTH_TOKEN)) ∧
   requests (fst (getAllDevices w)) = requests w) ∧
  (snd (getDeviceState w) = RejectedNow (Value (JsStr NO_AUTH_TOKEN)) ∧
   requests (fst (getDeviceState w)) = requests w) ∧
  (snd (sendCommand data w) = RejectedNow (Value (JsStr NO_AUTH_TOKEN)) ∧
   requests (fst (sendCommand data w)) = requests w).
Proof.
  intros Htoken. unfold getAllDevices, getDeviceState, sendCommand.
  cbn [emit accessToken]. rewrite Htoken. cbn [ToBoolean String.eqb negb fst snd].
  repeat split; now apply requests_emit_log.
Qed.

Lemma unauthenticated_rejects_witness :
  snd (getAllDevices (constructor example_config)) = RejectedNow (Value (JsStr NO_AUTH_TOKEN)) ∧
  requests (fst (getAllDevices (constructor example_config))) = [].
Proof.
  apply (proj1 (unauthenticated_rejects (constructor example_config)
                  {| cmd_device_id := "fan";
                     command := {| cmd_power := Some true; cmd_speed := None |} |}
                  eq_refl)).
Defined.

Import Accessory Platform.

(** C10. The promise of [login()] always fulfils with [undefined], whether
    the login succeeded, was refused or failed in transport; the handler
    the platform chains on it therefore always takes its "Login failed"
    branch and never starts device discovery. *)
Theorem login_fulfills_undefined (result : AxiosResult) (w : World) :
  snd (login_settle result w) = Fulfilled JsUndefined ∧
  snd (login result w) = Fulfilled JsUndefined ∧
  (∀ generate getAllDevices getDeviceState p,
     afterLogin generate (snd (login result w)) getAllDevices getDeviceState p
       = Platform.emit (LogError "Login failed. Skipping device discovery.") p).
Proof.
  assert (H : ∀ w, snd (login_settle result w) = Fulfilled JsUndefined).
  { intros w0. destruct result as [data|error]; cbn [login_settle]; [|reflexivity].
    destruct (login_then data w0); reflexivity. }
  split; [apply H|]. split; [apply H|].
  intros generate getAllDevices getDeviceState p. unfold login. rewrite H. reflexivity.
Qed.

(** ** Reconciliation *)

Lemma ids_snoc l a : ids (l ++ [a]) = ids l ∪ {[device_id (context_device a)]}.
Proof. unfold ids. now rewrite fmap_snoc, list_to_set_snoc_L. Qed.

Lemma elem_of_ids id l :
  id ∈ ids l ↔ ∃ a, a ∈ l ∧ device_id (context_device a) = id.
Proof.
  unfold ids. rewrite elem_of_list_to_set, list_elem_of_fmap. naive_solver.
Qed.

Lemma elem_of_inventory id devices :
  id ∈ inventory devices ↔ ∃ device, device ∈ devices ∧ device_id device = id.
Proof.
  unfold inventory. rewrite elem_of_list_to_set, list_elem_of_fmap. naive_solver.
Qed.

Lemma registered_snoc es e :
  registered (es ++ [e]) =
  registered es ++ match e with registerPlatformAccessories a => [a] | _ => [] end.
Proof. unfold registered. rewrite omap_app. now destruct e. Qed.

Lemma updated_snoc es e :
  updated (es ++ [e]) =
  updated es ++ match e with updatePlatformAccessories a => [a] | _ => [] end.
Proof. unfold updated. rewrite omap_app. now destruct e. Qed.

Lemma unregistered_snoc es e :
  unregistered (es ++ [e]) =
  unregistered es ++ match e with unregisterPlatformAccessories a => [a] | _ => [] end.
Proof. unfold unregistered. rewrite omap_app. now destruct e. Qed.

Section DiscoveryFacts.

Variable generate : string → string.
Hypothesis generate_inj : ∀ x y, generate x = generate y → x = y.

(** One remote device: the cache keeps its identifiers and stays keyed; the
    device is updated if its identifier is cached and registered if not. *)
Lemma discoverDevice_spec deviceStates p device :
  keyed generate (accessories p) →
  let p' := discoverDevice generate deviceStates p device in
  ids (accessories p') = ids (accessories p) ∧
  keyed generate (accessories p') ∧
  ids (registered (effects p'))
    = ids (registered (effects p)) ∪ ({[device_id device]} ∖ ids (accessories p)) ∧
  ids (updated (effects p'))
    = ids (updated (effects p)) ∪ ({[device_id device]} ∩ ids (accessories p)) ∧
  unregistered (effects p') = unregistered (effects p).
Proof.
  intros Hkeyed. cbv zeta. unfold discoverDevice.
  destruct (list_find _ (accessories p)) as [[i a]|] eqn:Hfind.
  - apply list_find_Some in Hfind as (Hi & Huuid & _).
    assert (Ha : a ∈ accessories p) by (eapply list_elem_of_lookup_2; eauto).
    assert (Hid : device_id (context_device a) = device_id device).
    { apply generate_inj. rewrite <- (Hkeyed a Ha). exact Huuid. }
    assert (Hin : device_id device ∈ ids (accessories p)).
    { apply elem_of_ids. eauto. }
    cbn [set_instance emit set_accessories accessories effects].
    rewrite !registered_snoc, !updated_snoc, !unregistered_snoc, !app_nil_r.
    rewrite ids_snoc. cbn [set_context context_device].
    split_and!.
    + unfold ids. rewrite list_fmap_insert. cbn [set_context context_device].
      rewrite list_insert_id; [reflexivity|].
      rewrite list_lookup_fmap, Hi. cbn. now rewrite Hid.
    + intros b Hb. apply list_elem_of_lookup in Hb as [j Hj].
      destruct (decide (i = j)) as [<- | Hne].
      * rewrite list_lookup_insert_eq in Hj by (eapply lookup_lt_Some; eauto).
        injection Hj as <-. cbn [set_context UUID context_device]. exact Huuid.
      * rewrite list_lookup_insert_ne in Hj by assumption.
        apply Hkeyed. eapply list_elem_of_lookup_2; eauto.
    + set_solver.
    + set_solver.
    + reflexivity.
  - apply list_find_None in Hfind.
    assert (Hout : device_id device ∉ ids (accessories p)).
    { rewrite elem_of_ids. intros (a & Ha & Hid).
      rewrite Forall_forall in Hfind. apply (Hfind a Ha).
      rewrite (Hkeyed a Ha). now rewrite Hid. }
    cbn [set_instance emit set_accessories accessories effects].
    rewrite !registered_snoc, !updated_snoc, !unregistered_snoc, !app_nil_r.
    rewrite ids_snoc. cbn [context_device].
    split_and!; [reflexivity | assumption | set_solver | set_solver | reflexivity].
Qed.

Lemma discover_loop_spec deviceStates devices : ∀ p,
  keyed generate (accessories p) →
  let p' := foldl (discoverDevice generate deviceStates) p devices in
  ids (accessories p') = ids (accessories p) ∧
  keyed generate (accessories p') ∧
  ids (registered (effects p'))
    = ids (registered (effects p)) ∪ (inventory devices ∖ ids (accessories p)) ∧
  ids (updated (effects p'))
    = ids (updated (effects p)) ∪ (inventory devices ∩ ids (accessories p)) ∧
  unregistered (effects p') = unregistered (effects p).
Proof.
  induction devices as [|device devices IH]; intros p Hkeyed; cbn [foldl].
  - change (inventory []) with (∅ : gset string).
    split_and!; [reflexivity | assumption | | | reflexivity ].
    + generalize (ids (registered (effects p))) (ids (accessories p)). set_solver.
    + generalize (ids (updated (effects p))) (ids (accessories p)). set_solver.
  - destruct (discoverDevice_spec deviceStates p device Hkeyed) as (E1 & K1 & R1 & U1 & X1).
    destruct (IH _ K1) as (E2 & K2 & R2 & U2 & X2).
    split_and!.
    + etrans; [exact E2 | exact E1].
    + exact K2.
    + etrans; [exact R2|]. rewrite R1, E1.
      change (inventory (device :: devices))
        with ({[device_id device]} ∪ inventory devices : gset string).
      generalize (ids (registered (effects p))) (ids (accessories p)) (inventory devices).
      set_solver.
    + etrans; [exact U2|]. rewrite U1, E1.
      change (inventory (device :: devices))
        with ({[device_id device]} ∪ inventory devices : gset string).
      generalize (ids (updated (effects p))) (ids (accessories p)) (inventory devices).
      set_solver.
    + etrans; [exact X2 | exact X1].
Qed.

End DiscoveryFacts.

Lemma find_is_device deviceId devices :
  (∃ device, List.find (is_device deviceId) devices = Some device) ↔
  deviceId ∈ inventory devices.
Proof.
  rewrite elem_of_inventory. split.
  - intros [device Hfind]. apply List.find_some in Hfind as [Hin Heq].
    exists device. split; [now apply list_elem_of_In|]. now apply String.eqb_eq.
  - intros (device & Hin & Hid).
    destruct (List.find (is_device deviceId) devices) as [d|] eqn:Hfind; [eauto|].
    apply list_elem_of_In in Hin.
    pose proof (List.find_none _ _ Hfind device Hin) as Hno.
    unfold is_device in Hno. rewrite Hid, String.eqb_refl in Hno. discriminate.
Qed.

Lemma ids_cons a l : ids (a :: l) = {[device_id (context_device a)]} ∪ ids l.
Proof. reflexivity. Qed.

Lemma remove_loop_spec devices l : ∀ p,
  let p' := foldl (removeIfGone devices) p l in
  accessories p' = accessories p ∧
  registered (effects p') = registered (effects p) ∧
  updated (effects p') = updated (effects p) ∧
  ids (unregistered (effects p'))
    = ids (unregistered (effects p)) ∪ (ids l ∖ inventory devices).
Proof.
  induction l as [|a l IH]; intros p; cbn [foldl].
  - split_and!; try reflexivity. change (ids []) with (∅ : gset string).
    generalize (ids (unregistered (effects p))). set_solver.
  - destruct (IH (removeIfGone devices p a)) as (E & R & U & X).
    rewrite ids_cons. unfold removeIfGone in *.
    destruct (List.find _ devices) as [device|] eqn:Hfind.
    + assert (Hin : device_id (context_device a) ∈ inventory devices)
        by (apply find_is_device; eauto).
      split_and!; [assumption..|]. etrans; [exact X|].
      revert Hin.
      generalize (ids (unregistered (effects p))) (ids l) (inventory devices)
                 (device_id (context_device a)).
      set_solver.
    + assert (Hout : device_id (context_device a) ∉ inventory devices).
      { intros Hin. apply find_is_device in Hin as [device Hd]. congruence. }
      cbn [emit accessories effects] in *.
      rewrite !registered_snoc, !updated_snoc, !unregistered_snoc, !app_nil_r in *.
      rewrite ids_snoc in X.
      split_and!; [assumption..|]. etrans; [exact X|].
      revert Hout.
      generalize (ids (unregistered (effects p))) (ids l) (inventory devices)
                 (device_id (context_device a)).
      set_solver.
Qed.

Lemma partition_sets (L R : gset string) :
  (∅ ∪ R ∖ L) ## (∅ ∪ R ∩ L) ∧
  (∅ ∪ R ∖ L) ## (∅ ∪ L ∖ R) ∧
  (∅ ∪ R ∩ L) ## (∅ ∪ L ∖ R) ∧
  (∅ ∪ R ∖ L) ∪ (∅ ∪ R ∩ L) = R ∧
  ∅ ∪ L ∖ R = L ∖ R ∧
  ∅ ∪ R ∖ L = R ∖ L ∧
  ∅ ∪ R ∩ L = R ∩ L.
Proof.
  split_and!; try set_solver.
  apply set_eq. intros x. destruct (decide (x ∈ L)); set_solver.
Qed.

(** C7. Reconciliation partitioning. For a remote inventory and a cache
    keyed by device identifier, a full pass registers, updates and
    unregisters three pairwise disjoint sets of identifiers; the registered
    and the updated ones together are the inventory, and the unregistered
    ones are the cached identifiers that the inventory lacks. The
    registered ones are the devices new to the cache, the updated ones the
    devices that are both in the inventory and in the cache. *)
Theorem reconciliation_partition (generate : string → string)
    (devices : list AtombergFanDevice) (deviceStates : list AtombergFanDeviceState)
    (cached : list PlatformAccessory)
    (instances : gmap string AtombergFanPlatformAccessory) :
  (∀ x y, generate x = generate y → x = y) →
  keyed generate cached →
  let p := discoverDevices generate (Api.Fulfilled (Some devices)) (Api.Fulfilled deviceStates)
             {| accessories := cached; accessoryInstances := instances; effects := [] |} in
  let added := ids (registered (effects p)) in
  let updated := ids (updated (effects p)) in
  let removed := ids (unregistered (effects p)) in
  added ## updated ∧ added ## removed ∧ updated ## removed ∧
  added ∪ updated = inventory devices ∧
  removed = ids cached ∖ inventory devices ∧
  added = inventory devices ∖ ids cached ∧
  updated = inventory devices ∩ ids cached.
Proof.
  intros Hinj Hkeyed. cbv zeta. unfold discoverDevices.
  set (p0 := emit _ _).
  assert (Hk0 : keyed generate (accessories p0)) by exact Hkeyed.
  destruct (discover_loop_spec generate Hinj deviceStates devices p0 Hk0)
    as (E1 & K1 & R1 & U1 & X1).
  destruct (remove_loop_spec devices
              (accessories (foldl (discoverDevice generate deviceStates) p0 devices))
              (foldl (discoverDevice generate deviceStates) p0 devices))
    as (E2 & R2 & U2 & X2).
  rewrite R2, U2, X2, R1, U1, X1, E1.
  apply (partition_sets (ids cached) (inventory devices)).
Qed.

Lemma example_generate_inj x y : example_generate x = example_generate y → x = y.
Proof. unfold example_generate. intros H. vm_compute in H. congruence. Qed.

Lemma example_cache_keyed :
  keyed example_generate [example_cached "B"; example_cached "C"].
Proof.
  intros a Ha.
  apply elem_of_cons in Ha as [-> | Ha]; [reflexivity|].
  apply elem_of_cons in Ha as [-> | Ha]; [reflexivity|].
  now apply elem_of_nil in Ha.
Qed.

(** Inventory {A, B} against cache {B, C}: A is registered, B is updated,
    C is unregistered. *)
Lemma reconciliation_partition_witness :
  let p := discoverDevices example_generate
             (Api.Fulfilled (Some [example_device "A"; example_device "B"]))
             (Api.Fulfilled [])
             {| accessories := [example_cached "B"; example_cached "C"];
                accessoryInstances := ∅; effects := [] |} in
  ids (registered (effects p)) = {["A"]} ∧
  ids (updated (effects p)) = {["B"]} ∧
  ids (unregistered (effects p)) = {["C"]}.
Proof.
  destruct (reconciliation_partition example_generate
              [example_device "A"; example_device "B"] []
              [example_cached "B"; example_cached "C"] ∅
              example_generate_inj example_cache_keyed)
    as (_ & _ & _ & _ & Hremoved & Hadded & Hupdated).
  cbv zeta in *. rewrite Hremoved, Hadded, Hupdated.
  split; [|split]; vm_compute; reflexivity.
Defined.

(** ** The accessory handler *)

(** C8. A state with [is_online] false leaves the Active and RotationSpeed
    values of the service as they were, both in [refreshDeviceStatus] and
    when the state arrives through [handleStateChange]. *)
Theorem offline_refresh_keeps_service (deviceState : AtombergFanDeviceState)
    (a : AtombergFanPlatformAccessory) :
  is_online deviceState = false →
  service (refreshDeviceStatus (Some deviceState) a) = service a ∧
  fanState (refreshDeviceStatus (Some deviceState) a) = fanState a ∧
  (∀ p id, accessoryInstances p !! id = Some a →
     ∃ a', accessoryInstances (handleStateChange deviceState p) !! id = Some a' ∧
           service a' = service a).
Proof.
  intros Hoff.
  assert (Hsame : ∀ b, service (refreshDeviceStatus (Some deviceState) b) = service b ∧
                       fanState (refreshDeviceStatus (Some deviceState) b) = fanState b).
  { intros b. unfold refreshDeviceStatus. rewrite Hoff. cbn. auto. }
  split; [apply Hsame|]. split; [apply Hsame|].
  intros p id Hid. unfold handleStateChange.
  destruct (state_device_id deviceState) as [| | | |s| |]; eauto.
  destruct (accessoryInstances p !! s) as [b|] eqn:Hs; [|eauto].
  cbn [set_instance emit accessoryInstances].
  destruct (decide (s = id)) as [-> | Hne].
  - rewrite lookup_insert_eq. rewrite Hid in Hs. injection Hs as <-.
    eexists; split; [reflexivity | apply Hsame].
  - rewrite lookup_insert_ne by assumption. eauto.
Qed.

Lemma offline_refresh_keeps_service_witness :
  let a := {| displayName := "fan"; fanState := None;
              service := {| Active := ACTIVE; RotationSpeed := 60 |}; log := [] |} in
  let offline := {| state_device_id := JsStr "fan"; is_online := false; power := false;
                    led := false; sleep_mode := false; last_recorded_speed := 0;
                    timer_hours := 0; timer_time_elapsed_mins := 0;
                    ts_epoch_seconds := Some 0; last_recorded_brightness := 0;
                    last_recorded_color := "Warm" |} in
  service (refreshDeviceStatus (Some offline) a)
    = {| Active := ACTIVE; RotationSpeed := 60 |}.
Proof.
  intros a offline.
  apply (proj1 (offline_refresh_keeps_service offline a eq_refl)).
Defined.

(** * Further properties *)

(** ** Broadcast listener *)

Section ListenerMore.

Variable Buffer_toString : list Byte.byte → string.
Variable JSON_parse : string → Completion JsValue.
Variable StringToNumber : string → Number.

(** X1. [onMessage] publishes at most one state per datagram: the decoded
    one, when the datagram is larger than 100 bytes and decodes; a smaller
    datagram causes no effect at all. A published state is always online. *)
Theorem onMessage_publishes (message : list Byte.byte) (remote : RemoteInfo) :
  (if 100 <? size remote then
     emitted (fst (onMessage Buffer_toString JSON_parse StringToNumber message remote))
       = match snd (parseMessage Buffer_toString JSON_parse StringToNumber message) with
         | Normal (Some state) => [state]
         | _ => []
         end
   else fst (onMessage Buffer_toString JSON_parse StringToNumber message remote) = []) ∧
  Forall (λ state, is_online state = true)
    (emitted (fst (onMessage Buffer_toString JSON_parse StringToNumber message remote))).
Proof.
  unfold Broadcast.onMessage.
  destruct (100 <? size remote).
  - destruct (parseMessage_cases Buffer_toString JSON_parse StringToNumber message)
      as [(d & c & ->) | (e & ->)]; cbn.
    + split; [reflexivity | repeat constructor].
    + split; [reflexivity | constructor].
  - split; [reflexivity | constructor].
Qed.

(** X4. [parseMessage] succeeds exactly when the decoded text parses to a
    value that is neither [null] nor [undefined] and whose [state_string]
    is a string; a missing [device_id] does not make it fail. *)
Theorem parseMessage_succeeds_iff (message : list Byte.byte) :
  (∃ state, snd (parseMessage Buffer_toString JSON_parse StringToNumber message)
              = Normal (Some state)) ↔
  (∃ jsonMessage state_string,
     JSON_parse (Buffer_toString (Buffer_from_hex (Buffer_toString message)))
       = Normal jsonMessage ∧
     Get jsonMessage "state_string" = Normal (JsStr state_string)).
Proof.
  unfold Broadcast.parseMessage, Broadcast.parseMessage_try.
  destruct (JSON_parse _) as [jsonMessage|e]; cbn [bind].
  - destruct (Get jsonMessage "state_string") as [v|e] eqn:Hget; cbn [bind].
    + destruct v as [| | | |s| |]; cbn [call_split bind snd];
        try (split; [intros [? H]; discriminate
                    | intros (j & st & Hj & H); injection Hj as <-; congruence]).
      assert (∃ d, Get jsonMessage "device_id" = Normal d) as [d ->].
      { destruct jsonMessage; try discriminate; cbn; eauto. }
      cbn [bind snd]. split; eauto.
    + cbn [snd]. split; [intros [? H]; discriminate
                        | intros (j & st & Hj & H); injection Hj as <-; congruence].
  - cbn [snd]. split; [intros [? H]; discriminate | intros (j & st & Hj & H); discriminate].
Qed.

End ListenerMore.

Lemma wrap32_periodic c k : wrap32 (c + k * two32) = wrap32 c.
Proof.
  unfold wrap32. f_equal.
  replace (c + k * two32 + two31) with (c + two31 + k * two32) by lia.
  apply Z_mod_plus_full.
Qed.

(** X3. Only the low 32 bits of a state code are read: two integer codes
    that a double holds exactly (up to 2^53 in absolute value) and that
    differ by a multiple of 2^32 decode alike, and a code that is not a
    finite number decodes like 0. *)
Theorem decodeState_low_32_bits (device_id : JsValue) (c k : Z) (negative : bool) :
  (safe_integer c → safe_integer (c + k * 4294967296) →
   decodeState device_id (int (c + k * 4294967296)) = decodeState device_id (int c)) ∧
  decodeState device_id NaN = decodeState device_id (int 0) ∧
  decodeState device_id (Infinity negative) = decodeState device_id (int 0).
Proof.
  split; [|split; reflexivity].
  intros _ _. unfold decodeState, bitand. rewrite !ToInt32_int.
  change 4294967296 with two32. now rewrite wrap32_periodic.
Qed.

(** The codes 19 and 19 + 2^32. *)
Lemma decodeState_low_32_bits_witness :
  decodeState (JsStr "fan") (int (19 + 1 * 4294967296)) = decodeState (JsStr "fan") (int 19).
Proof.
  apply (proj1 (decodeState_low_32_bits (JsStr "fan") 19 1 false));
    unfold safe_integer; lia.
Defined.

Lemma decodeState_fields device_id stateCode :
  timer_hours (decodeState device_id stateCode) = (ToInt32 stateCode / 65536) mod 16 ∧
  last_recorded_brightness (decodeState device_id stateCode)
    = (ToInt32 stateCode / 256) mod 128 ∧
  timer_time_elapsed_mins (decodeState device_id stateCode)
    = ToInt32 stateCode / 16777216 * 4.
Proof.
  unfold decodeState.
  cbn [timer_hours last_recorded_brightness timer_time_elapsed_mins].
  split_and!.
  - rewrite bitand_int by (unfold two31; lia).
    change 983040 with (15 * 2 ^ 16). change 65536 with (2 ^ 16).
    rewrite field_shift by lia.
    rewrite Z.land_comm. change 15 with (Z.ones 4). now rewrite Z.land_ones by lia.
  - rewrite bitand_int by (unfold two31; lia).
    change 32512 with (127 * 2 ^ 8). change 256 with (2 ^ 8).
    rewrite field_shift by lia.
    rewrite Z.land_comm. change 127 with (Z.ones 7). now rewrite Z.land_ones by lia.
  - unfold bitand. rewrite ToInt32_int.
    change (wrap32 4278190080) with (- 2 ^ 24).
    rewrite land_neg_pow2 by lia.
    change 16777216 with (2 ^ 24).
    rewrite <- Z.mul_assoc, (Z.mul_comm (2 ^ 24) 4), Z.mul_assoc.
    now rewrite Z.div_mul by lia.
Qed.

Lemma ToInt32_range n : - two31 <= ToInt32 n < two31.
Proof.
  destruct n; cbn [ToInt32]; try (unfold two31; lia). apply wrap32_range.
Qed.

(** X2. Ranges of the decoded fields, for every state code: the state is
    online and has no timestamp, the timer is in [0, 15], the brightness in
    [0, 127], and the elapsed minutes are a multiple of 4 in [-512, 508]. *)
Theorem decoded_field_ranges (device_id : JsValue) (stateCode : Number) :
  let s := decodeState device_id stateCode in
  is_online s = true ∧ ts_epoch_seconds s = None ∧ state_device_id s = device_id ∧
  0 <= timer_hours s <= 15 ∧
  0 <= last_recorded_brightness s <= 127 ∧
  -512 <= timer_time_elapsed_mins s <= 508 ∧
  timer_time_elapsed_mins s mod 4 = 0.
Proof.
  cbv zeta.
  destruct (decodeState_fields device_id stateCode) as (-> & -> & ->).
  pose proof (ToInt32_range stateCode) as Hr. unfold two31 in Hr.
  split; [reflexivity|]. split; [reflexivity|]. split; [reflexivity|].
  split; [pose proof (Z.mod_pos_bound (ToInt32 stateCode / 65536) 16); lia|].
  split; [pose proof (Z.mod_pos_bound (ToInt32 stateCode / 256) 128); lia|].
  split; [Z.div_mod_to_equations; lia|].
  apply Z.mod_mul. lia.
Qed.

Lemma split_comma_nonempty s : split_comma s ≠ [].
Proof.
  destruct s as [|c s]; cbn; [discriminate|].
  destruct (Ascii.eqb c ","); [discriminate|].
  destruct (split_comma s); discriminate.
Qed.

(** X5. [state_string.split(',')[0]] is the text before the first comma;
    what follows the comma is not read, and a string without a comma is
    taken whole. *)
Theorem first_field (field rest : string) :
  comma_free field = true →
  first (split_comma (field +:+ "," +:+ rest)) = Some field ∧
  first (split_comma field) = Some field.
Proof.
  intros Hfree. split.
  - induction field as [|c field IH].
    + reflexivity.
    + cbn [comma_free] in Hfree. apply andb_true_iff in Hfree as [Hc Hfree].
      apply negb_true_iff in Hc. specialize (IH Hfree).
      change (String c field +:+ "," +:+ rest) with (String c (field +:+ "," +:+ rest)).
      cbn [split_comma]. rewrite Hc. unfold first in *.
      destruct (split_comma _) as [|piece pieces]; cbn in *; congruence.
  - induction field as [|c field IH].
    + reflexivity.
    + cbn [comma_free] in Hfree. apply andb_true_iff in Hfree as [Hc Hfree].
      apply negb_true_iff in Hc. specialize (IH Hfree).
      cbn [split_comma]. rewrite Hc. unfold first in *.
      destruct (split_comma _) as [|piece pieces]; cbn in *; congruence.
Qed.

Lemma first_field_witness :
  first (split_comma ("19" +:+ "," +:+ "0,0,0")) = Some "19" ∧
  first (split_comma "19") = Some "19".
Proof. apply (first_field "19" "0,0,0"). reflexivity. Defined.

(** ** Session manager, further *)

(** How [login_settle] acts, by the token the response grants. *)
Lemma login_settle_cases result w :
  let w' := fst (login_settle result w) in
  next_timer w' = S (next_timer w) ∧
  match granted_token result with
  | Some token =>
      accessToken w' = token ∧
      timers w' = timers w ++ [refresh_timer w] ∧
      _loginRefreshInterval w' = Some (next_timer w) ∧
      _loginRetryTimeouts w' = _loginRetryTimeouts w
  | None =>
      (accessToken w' = JsStr "" ∨ accessToken w' = accessToken w) ∧
      timers w' = timers w ++ [retry_timer w] ∧
      _loginRefreshInterval w' = _loginRefreshInterval w ∧
      _loginRetryTimeouts w' = _loginRetryTimeouts w ++ [next_timer w]
  end.
Proof.
  cbv zeta. destruct result as [data|error]; cbn [login_settle granted_token].
  - unfold login_then, message_field.
    destruct (Get data "status") as [status|e]; cbn [bind].
    + destruct (is_not_Success status).
      * destruct (Get data "message") as [message|e]; cbn; auto 10.
      * destruct (Get data "message") as [message|e]; cbn [bind fst].
        -- destruct (Get message "access_token") as [token|e]; cbn; auto 10.
        -- cbn; auto 10.
    + cbn; auto 10.
  - cbn; auto 10.
Qed.

(** X6. Whatever the response, a settling login schedules exactly one
    timer: the refresh interval of 23 hours, recorded in
    [_loginRefreshInterval], when the response grants a token, which is
    then stored; else one retry timeout of 360 seconds, pushed on
    [_loginRetryTimeouts], the stored token being cleared or kept. *)
Theorem login_schedules_one_timer (result : AxiosResult) (w : World) :
  let w' := fst (login_settle result w) in
  match granted_token result with
  | Some token =>
      accessToken w' = token ∧
      timers w' = timers w ++ [{| timer_id := next_timer w; timer_kind := Interval;
                                  timer_delay := 82800000 |}] ∧
      _loginRefreshInterval w' = Some (next_timer w) ∧
      _loginRetryTimeouts w' = _loginRetryTimeouts w
  | None =>
      (accessToken w' = JsStr "" ∨ accessToken w' = accessToken w) ∧
      timers w' = timers w ++ [{| timer_id := next_timer w; timer_kind := Timeout;
                                  timer_delay := 360000 |}] ∧
      _loginRefreshInterval w' = _loginRefreshInterval w ∧
      _loginRetryTimeouts w' = _loginRetryTimeouts w ++ [next_timer w]
  end.
Proof.
  cbv zeta. destruct (login_settle_cases result w) as [_ H]. exact H.
Qed.

Lemma refresh_intervals_snoc w' w t :
  timers w' = timers w ++ [t] →
  refresh_intervals w' = refresh_intervals w ++ (if is_interval t then [t] else []).
Proof.
  intros E. unfold refresh_intervals. rewrite E, List.filter_app. cbn.
  now destruct (is_interval t).
Qed.

Lemma retry_timeouts_snoc w' w t :
  timers w' = timers w ++ [t] →
  retry_timeouts w' = retry_timeouts w ++ (if is_timeout t then [t] else []).
Proof.
  intros E. unfold retry_timeouts. rewrite E, List.filter_app. cbn.
  now destruct (is_timeout t).
Qed.

Lemma handle_401 w :
  let w' := handleNetworkRequestError
              {| error_response := Some 401; error_request := true;
                 error_message := "Request failed with status code 401" |} w in
  timers w' = timers w ++ [retry_timer w] ∧
  _loginRefreshInterval w' = _loginRefreshInterval w ∧
  _loginRetryTimeouts w' = _loginRetryTimeouts w ++ [next_timer w].
Proof. cbn. auto. Qed.

Lemma clearTimeout_on_record id w : on_record w → on_record (clearTimeout id w).
Proof.
  intros Hrec t Ht. cbn [clearTimeout set_timers timers] in Ht.
  apply list_elem_of_filter in Ht as [_ Ht]. exact (Hrec t Ht).
Qed.

Lemma fire_on_record t w : on_record w → on_record (fire t w).
Proof.
  intros Hrec. unfold fire. destruct (timer_kind t); [|assumption].
  now apply clearTimeout_on_record.
Qed.

Lemma login_request_empty_on_record w :
  timers (login_request w) = [] → on_record (login_request w).
Proof. intros E t Ht. rewrite E in Ht. now apply elem_of_nil in Ht. Qed.

Lemma refresh_intervals_nil w : timers w = [] → refresh_intervals w = [].
Proof. unfold refresh_intervals. now intros ->. Qed.

Lemma step_one_chain l e : one_chain l → overlaps l e = false → one_chain (step l e).
Proof.
  intros (Hrec & Hfl & Hlen & Hnone) Hserial.
  destruct e as [|result|id|]; cbn [step overlaps] in *.
  - apply negb_false_iff, Nat.eqb_eq in Hserial.
    pose proof (login_request_clears _ Hrec) as Hclear.
    split; [|split; [|split]]; cbn [world in_flight].
    + now apply login_request_empty_on_record.
    + lia.
    + rewrite (refresh_intervals_nil _ Hclear). cbn. lia.
    + intros _. now apply refresh_intervals_nil.
  - assert (Hinv : one_chain l) by (split; [|split; [|split]]; assumption).
    destruct (in_flight l) as [|n] eqn:Hn; [exact Hinv|clear Hinv].
    assert (n = 0%nat) as -> by lia.
    specialize (Hnone eq_refl).
    destruct (login_settle_cases result (world l)) as [_ Hcase]. cbv zeta in Hcase.
    split; [|split; [|split]]; cbn [world in_flight].
    + intros t Ht.
      destruct (granted_token result) as [token|];
        destruct Hcase as (_ & Htimers & Hint & Hretry);
        rewrite Htimers in Ht; apply elem_of_app in Ht as [Ht | Ht].
      * assert (Hin : t ∈ refresh_intervals (world l) ∨ timer_kind t = Timeout).
        { destruct (timer_kind t) eqn:Hk; [now right|left].
          unfold refresh_intervals. apply list_elem_of_In, List.filter_In.
          split; [now apply list_elem_of_In|]. unfold is_interval. now rewrite Hk. }
        destruct Hin as [Hin | Hk]; [rewrite Hnone in Hin; now apply elem_of_nil in Hin|].
        pose proof (Hrec t Ht) as Ht'. rewrite Hk in *. now rewrite Hretry.
      * apply list_elem_of_singleton in Ht as ->. exact Hint.
      * pose proof (Hrec t Ht) as Ht'.
        destruct (timer_kind t); [|now rewrite Hint].
        rewrite Hretry. apply elem_of_app. now left.
      * apply list_elem_of_singleton in Ht as ->. cbn.
        rewrite Hretry. apply elem_of_app. right. left.
    + lia.
    + destruct (granted_token result) as [token|];
        destruct Hcase as (_ & Htimers & _);
        rewrite (refresh_intervals_snoc _ _ _ Htimers), Hnone; cbn; lia.
    + discriminate.
  - destruct (find (is_timer id) (timers (world l))) as [t|] eqn:Hfind.
    2: { split; [|split; [|split]]; assumption. }
    apply negb_false_iff, Nat.eqb_eq in Hserial.
    pose proof (login_request_clears _ (fire_on_record t _ Hrec)) as Hclear.
    split; [|split; [|split]]; cbn [world in_flight].
    + now apply login_request_empty_on_record.
    + lia.
    + rewrite (refresh_intervals_nil _ Hclear). cbn. lia.
    + intros _. now apply refresh_intervals_nil.
  - set (w' := handleNetworkRequestError _ (world l)).
    assert (timers w' = timers (world l) ++ [retry_timer (world l)] ∧
            _loginRefreshInterval w' = _loginRefreshInterval (world l) ∧
            _loginRetryTimeouts w' = _loginRetryTimeouts (world l) ++ [next_timer (world l)])
      as (Htimers & Hint & Hretry) by exact (handle_401 (world l)).
    clearbody w'.
    split; [|split; [|split]]; cbn [world in_flight].
    + intros t Ht. rewrite Htimers in Ht. apply elem_of_app in Ht as [Ht | Ht].
      * pose proof (Hrec t Ht) as Ht'.
        destruct (timer_kind t); [|now rewrite Hint].
        rewrite Hretry. apply elem_of_app. now left.
      * apply list_elem_of_singleton in Ht as ->. cbn.
        rewrite Hretry. apply elem_of_app. right. left.
    + exact Hfl.
    + rewrite (refresh_intervals_snoc _ _ _ Htimers). cbn. rewrite app_nil_r. exact Hlen.
    + intros Hf. rewrite (refresh_intervals_snoc _ _ _ Htimers). cbn.
      rewrite app_nil_r. auto.
Qed.

Lemma run_one_chain events : ∀ l,
  one_chain l → serial events l = true → one_chain (run events l).
Proof.
  induction events as [|e events IH]; intros l Hinv Hserial; [exact Hinv|].
  cbn [serial] in Hserial. apply andb_true_iff in Hserial as [He Hrest].
  apply negb_true_iff in He. cbn [run foldl].
  apply IH; [now apply step_one_chain | exact Hrest].
Qed.

Lemma start_one_chain cfg : one_chain (start cfg).
Proof.
  repeat split; cbn; try lia. intros t Ht. now apply elem_of_nil in Ht.
Qed.

(** X7. As long as no login starts while another is in flight, whatever
    else happens (responses of any kind, timers firing, 401 answers to
    other calls), at most one refresh interval is active, every active
    timer is on record in the instance, and the next login cancels them
    all before it sends its request. *)
Theorem serial_logins_keep_one_chain (cfg : AtombergFanPlatformConfig)
    (events : list Event) :
  serial events (start cfg) = true →
  let w := world (run events (start cfg)) in
  (length (refresh_intervals w) ≤ 1)%nat ∧ on_record w ∧ timers (login_request w) = [].
Proof.
  intros Hserial. cbv zeta.
  destruct (run_one_chain events (start cfg) (start_one_chain cfg) Hserial)
    as (Hrec & _ & Hlen & _).
  split_and!; [exact Hlen | exact Hrec | now apply login_request_clears].
Qed.

Lemma serial_logins_keep_one_chain_witness :
  let events := [CallLogin; Unauthorized; SettleLogin (Failure network_error);
                 Unauthorized; FireTimer 1; SettleLogin (success "token")] in
  let w := world (run events (start example_config)) in
  (length (refresh_intervals w) ≤ 1)%nat ∧ on_record w ∧ timers (login_request w) = [].
Proof.
  apply (serial_logins_keep_one_chain example_config
           [CallLogin; Unauthorized; SettleLogin (Failure network_error);
            Unauthorized; FireTimer 1; SettleLogin (success "token")]).
  reflexivity.
Defined.

Lemma login_alone_cases result w :
  on_record w →
  let w' := fst (login result w) in
  on_record w' ∧
  match granted_token result with
  | Some token => accessToken w' = token ∧ timers w' = [refresh_timer w]
  | None =>
      (accessToken w' = JsStr "" ∨ accessToken w' = accessToken w) ∧
      timers w' = [retry_timer w]
  end.
Proof.
  intros Hrec. cbv zeta.
  destruct (login_alone_single_timer result w Hrec) as [_ Hrec'].
  split; [exact Hrec'|]. unfold login.
  pose proof (login_request_clears w Hrec) as Hclear.
  destruct (login_request_record w) as (_ & _ & Htoken & Hnext).
  destruct (login_settle_cases result (login_request w)) as [_ Hcase]. cbv zeta in Hcase.
  unfold refresh_timer, retry_timer in *. rewrite Hclear, Hnext, Htoken in Hcase.
  destruct (granted_token result); destruct Hcase as (? & ? & _); auto.
Qed.

Lemma failing_logins failures : ∀ w,
  on_record w → accessToken w = JsStr "" → refresh_intervals w = [] →
  Forall (λ result, granted_token result = None) failures →
  let w' := foldl (λ w result, fst (login result w)) w failures in
  on_record w' ∧ accessToken w' = JsStr "" ∧ refresh_intervals w' = [] ∧
  (failures ≠ [] → length (retry_timeouts w') = 1%nat).
Proof.
  induction failures as [|r rs IH] using rev_ind; intros w Hrec Htoken Hint Hfail.
  - cbn. split_and!; auto. congruence.
  - apply Forall_app in Hfail as [Hrs Hr]. apply Forall_cons in Hr as [Hr _]. cbv beta in Hr.
    destruct (IH w Hrec Htoken Hint Hrs) as (Hrec' & Htoken' & _ & _).
    cbv zeta. rewrite foldl_app. cbn [foldl].
    set (w1 := foldl _ w rs) in *.
    destruct (login_alone_cases r w1 Hrec') as [Hrec'' Hcase]. cbv zeta in Hcase.
    rewrite Hr in Hcase. destruct Hcase as [Htok Htimers].
    split_and!.
    + exact Hrec''.
    + destruct Htok as [-> | ->]; [reflexivity | exact Htoken'].
    + unfold refresh_intervals. now rewrite Htimers.
    + intros _. unfold retry_timeouts. now rewrite Htimers.
Qed.

Lemma constructor_on_record cfg : on_record (Api.constructor cfg).
Proof. intros t Ht. now apply elem_of_nil in Ht. Qed.

(** X8. Logins that fail one after the other, then one that succeeds: the
    token stays empty and exactly one retry timeout is pending after each
    failure; after the success the token is stored, exactly one refresh
    interval is active and no retry timeout is left. *)
Theorem retries_until_success (cfg : AtombergFanPlatformConfig)
    (failures : list AxiosResult) (token : string) :
  Forall (λ result, granted_token result = None) failures →
  let w := foldl (λ w result, fst (login result w)) (Api.constructor cfg) failures in
  accessToken w = JsStr "" ∧ refresh_intervals w = [] ∧
  (failures ≠ [] → length (retry_timeouts w) = 1%nat) ∧
  let w' := fst (login (success token) w) in
  accessToken w' = JsStr token ∧
  length (refresh_intervals w') = 1%nat ∧ retry_timeouts w' = [].
Proof.
  intros Hfail. cbv zeta.
  destruct (failing_logins failures (Api.constructor cfg) (constructor_on_record cfg)
              eq_refl eq_refl Hfail) as (Hrec & Htoken & Hint & Hretry).
  cbv zeta in *. split_and!; try assumption.
  - destruct (login_alone_cases (success token) _ Hrec) as [_ (Htok & Htimers)].
    exact Htok.
  - destruct (login_alone_cases (success token) _ Hrec) as [_ (Htok & Htimers)].
    cbv zeta in Htimers. unfold refresh_intervals. now rewrite Htimers.
  - destruct (login_alone_cases (success token) _ Hrec) as [_ (Htok & Htimers)].
    cbv zeta in Htimers. unfold retry_timeouts. now rewrite Htimers.
Qed.

Lemma retries_until_success_witness :
  let failures := [Failure network_error; refused "Failure" (JsStr "Invalid token")] in
  let w := foldl (λ w result, fst (login result w)) (Api.constructor example_config) failures in
  accessToken w = JsStr "" ∧ refresh_intervals w = [] ∧
  (failures ≠ [] → length (retry_timeouts w) = 1%nat) ∧
  let w' := fst (login (success "token") w) in
  accessToken w' = JsStr "token" ∧
  length (refresh_intervals w') = 1%nat ∧ retry_timeouts w' = [].
Proof.
  apply (retries_until_success example_config
           [Failure network_error; refused "Failure" (JsStr "Invalid token")] "token").
  repeat constructor.
Defined.



(** Whether the classification of a payload throws does not depend on
    the world. *)
Lemma handlePayloadError_throws payload w w' :
  snd (handlePayloadError payload w) = snd (handlePayloadError payload w').
Proof.
  unfold handlePayloadError.
  destruct (Get payload "response") as [response|e]; [|reflexivity].
  destruct (ToBoolean response).
  - destruct (Get response "status") as [status|e]; [|reflexivity].
    destruct (is_401 status); [reflexivity|].
    destruct (key_throws status); [reflexivity|].
    destruct (error_code (key_of status)); [reflexivity|].
    destruct (Get response "data") as [[]|]; reflexivity.
  - destruct (Get payload "request") as [request|e]; [|reflexivity].
    destruct (ToBoolean request); [reflexivity|].
    destruct (Get payload "message"); reflexivity.
Qed.



Lemma request_settle_result result done failed outcome w :
  snd (request_settle result done failed outcome w) =
  match outcome with
  | Response data =>
      match Get data "status" with
      | Normal status =>
          if is_not_Success status then
            match snd (handlePayloadError (message_or_data data) w) with
            | Some e => Rejected (Api.Thrown e)
            | None => Rejected (Value JsUndefined)
            end
          else match result data with
               | Normal v => Fulfilled v
               | Throw _ => Rejected (Value JsUndefined)
               end
      | Throw _ => Rejected (Value JsUndefined)
      end
  | Failure _ => Rejected (Value JsUndefined)
  end.
Proof.
  unfold request_settle, request_then, request_catch.
  destruct outcome as [data|error]; [|reflexivity].
  destruct (Get data "status") as [status|e]; [|reflexivity].
  destruct (is_not_Success status).
  - rewrite (handlePayloadError_throws _ w
               (Api.emit (Api.Debug failed) (Api.emit (DebugValue data) w))).
    destruct (handlePayloadError _ _) as [w' [e|]]; reflexivity.
  - destruct (result data); reflexivity.
Qed.



(** A message whose [response.status] is an object with a [toString]
    member of its own: the lookup in the table of error codes throws, and
    the promise is rejected with that TypeError. *)
Lemma refused_unconvertible_status :
  snd (sendCommand_settle
         (refused "Failure"
            (JsObj [("response", JsObj [("status", JsObj [("toString", JsNum (int 1))])])]))
         (Api.constructor example_config))
    = Rejected (Api.Thrown (TypeError "Cannot convert object to primitive value")).
Proof. vm_compute. reflexivity. Qed.

Lemma emit_requests e w :
  is_request e = false → requests (Api.emit e w) = requests w.
Proof.
  intros He. unfold requests. cbn [Api.emit trace].
  rewrite List.filter_app. cbn [List.filter]. rewrite He. apply app_nil_r.
Qed.

Lemma error_code_log key logged : error_code key = Some logged → is_request logged = false.
Proof.
  unfold error_code. destruct key as [n|name|]; [| |discriminate].
  - destruct (ATOMBERG_ERROR_CODES n); cbn; intros [= <-]; reflexivity.
  - repeat case_match; cbn; try discriminate; intros [= <-]; reflexivity.
Qed.

(** What the classification of a payload does to the instance: it writes
    log lines, and schedules one retry when the payload carries a truthy
    [response] whose [status] is 401. *)
Lemma handlePayloadError_world payload w :
  let w' := fst (handlePayloadError payload w) in
  accessToken w' = accessToken w ∧
  _loginRefreshInterval w' = _loginRefreshInterval w ∧
  requests w' = requests w ∧
  ((timers w' = timers w ∧ _loginRetryTimeouts w' = _loginRetryTimeouts w) ∨
   (timers w' = timers w ++ [retry_timer w] ∧
    _loginRetryTimeouts w' = _loginRetryTimeouts w ++ [next_timer w])).
Proof.
  cbv zeta. unfold handlePayloadError.
  assert (Hlogs : ∀ w', accessToken w' = accessToken w →
            _loginRefreshInterval w' = _loginRefreshInterval w →
            requests w' = requests w →
            timers w' = timers w → _loginRetryTimeouts w' = _loginRetryTimeouts w →
            accessToken w' = accessToken w ∧
            _loginRefreshInterval w' = _loginRefreshInterval w ∧
            requests w' = requests w ∧
            ((timers w' = timers w ∧ _loginRetryTimeouts w' = _loginRetryTimeouts w) ∨
             (timers w' = timers w ++ [retry_timer w] ∧
              _loginRetryTimeouts w' = _loginRetryTimeouts w ++ [next_timer w]))) by auto 10.
  destruct (Get payload "response") as [response|e]; [|now apply Hlogs].
  destruct (ToBoolean response).
  - destruct (Get response "status") as [status|e];
      [|apply Hlogs; try reflexivity; now apply emit_requests].
    destruct (is_401 status).
    { split_and!; try reflexivity; [|right; split; reflexivity].
      apply (emit_requests (DebugValue response)). reflexivity. }
    destruct (key_throws status);
      [apply Hlogs; try reflexivity; now apply emit_requests|].
    destruct (error_code (key_of status)) as [logged|] eqn:Hcode.
    { apply error_code_log in Hcode. apply Hlogs; try reflexivity.
      cbn [fst]. rewrite emit_requests by assumption. now apply emit_requests. }
    destruct (Get response "data") as [[]|]; apply Hlogs; try reflexivity;
      cbn [fst]; rewrite emit_requests by reflexivity; now apply emit_requests.
  - destruct (Get payload "request") as [request|e]; [|now apply Hlogs].
    destruct (ToBoolean request);
      [apply Hlogs; try reflexivity; now apply emit_requests|].
    destruct (Get payload "message"); apply Hlogs; try reflexivity;
      now apply emit_requests.
Qed.

Lemma request_settle_refused result done failed status message w :
  status ≠ "Success" →
  fst (request_settle result done failed (refused status message) w) =
  fst (handlePayloadError
         (message_or_data (JsObj [("status", JsStr status); ("message", message)]))
         (Api.emit (Api.Debug failed)
            (Api.emit (DebugValue (JsObj [("status", JsStr status); ("message", message)]))
               w))).
Proof.
  intros Hstatus. unfold request_settle, request_then, request_catch, refused.
  set (body := JsObj [("status", JsStr status); ("message", message)]).
  change (Get body "status") with (Normal (JsStr status)).
  assert (Hnot : is_not_Success (JsStr status) = true).
  { cbn. now assert ((status =? "Success")%string = false) as -> by now apply String.eqb_neq. }
  cbv beta iota. rewrite Hnot.
  destruct (handlePayloadError _ _) as [w' [e|]]; reflexivity.
Qed.

(** X23. A 2xx response with a status other than ['Success'] leaves the
    token, the refresh interval and the timers of the instance alone and
    sends nothing, with one exception: a message that carries
    [response.status] 401 is taken for a 401 answer, and one login
    retry is scheduled and recorded. A message with no truthy [response]
    member, as every text is, schedules nothing. This holds for each of
    the three operations. *)
Theorem refused_message_classified (status : string) (message : JsValue) (w : World) :
  status ≠ "Success" →
  let classified (operation : AxiosResult → World → World * Settled JsValue) :=
    let w' := fst (operation (refused status message) w) in
    accessToken w' = accessToken w ∧
    _loginRefreshInterval w' = _loginRefreshInterval w ∧
    requests w' = requests w ∧
    ((∀ props, message = JsObj props → ToBoolean (Js.assoc "response" props) = false) →
     timers w' = timers w ∧ _loginRetryTimeouts w' = _loginRetryTimeouts w) ∧
    (∀ props response,
       message = JsObj props →
       Js.assoc "response" props = JsObj response →
       Js.assoc "status" response = JsNum (int 401) →
       timers w' = timers w ++ [retry_timer w] ∧
       _loginRetryTimeouts w' = _loginRetryTimeouts w ++ [next_timer w] ∧
       snd (operation (refused status message) w) = Rejected (Value JsUndefined)) in
  classified getAllDevices_settle ∧
  classified getDeviceState_settle ∧
  classified sendCommand_settle.
Proof.
  intros Hstatus.
  assert (H : ∀ result done failed,
    let w' := fst (request_settle result done failed (refused status message) w) in
    accessToken w' = accessToken w ∧
    _loginRefreshInterval w' = _loginRefreshInterval w ∧
    requests w' = requests w ∧
    ((∀ props, message = JsObj props → ToBoolean (Js.assoc "response" props) = false) →
     timers w' = timers w ∧ _loginRetryTimeouts w' = _loginRetryTimeouts w) ∧
    (∀ props response,
       message = JsObj props →
       Js.assoc "response" props = JsObj response →
       Js.assoc "status" response = JsNum (int 401) →
       timers w' = timers w ++ [retry_timer w] ∧
       _loginRetryTimeouts w' = _loginRetryTimeouts w ++ [next_timer w] ∧
       snd (request_settle result done failed (refused status message) w)
         = Rejected (Value JsUndefined))).
  { intros result done failed. cbv zeta.
    rewrite request_settle_result, (request_settle_refused _ _ _ _ _ _ Hstatus).
    unfold refused.
    set (body := JsObj [("status", JsStr status); ("message", message)]).
    set (w0 := Api.emit (Api.Debug failed) (Api.emit (DebugValue body) w)).
    change (Get body "status") with (Normal (JsStr status)). cbv beta iota.
    assert (is_not_Success (JsStr status) = true) as ->.
    { cbn. now assert ((status =? "Success")%string = false) as -> by now apply String.eqb_neq. }
    assert (Hw0 : accessToken w0 = accessToken w ∧
                  _loginRefreshInterval w0 = _loginRefreshInterval w ∧
                  requests w0 = requests w ∧ timers w0 = timers w ∧
                  _loginRetryTimeouts w0 = _loginRetryTimeouts w ∧
                  next_timer w0 = next_timer w).
    { subst w0. split_and!; try reflexivity.
      rewrite emit_requests by reflexivity. now apply emit_requests. }
    destruct Hw0 as (Htoken & Hrefresh & Hrequests & Htimers & Hretries & Hnext).
    destruct (handlePayloadError_world (message_or_data body) w0)
      as (Htoken' & Hrefresh' & Hrequests' & _).
    cbv zeta in *.
    split_and!; try congruence.
    - intros Hplain. rewrite <- Htimers, <- Hretries.
      unfold handlePayloadError, message_or_data. subst body. cbn.
      destruct message as [| |b|n|text|items|props]; cbn; try (split; reflexivity).
      rewrite (Hplain props eq_refl).
      destruct (ToBoolean (Js.assoc "request" props)); split; reflexivity.
    - intros props response -> Hresponse Hcode.
      unfold handlePayloadError, message_or_data. subst body.
      cbn. rewrite Hresponse. cbn. rewrite Hcode. cbn.
      change (Qeq_bool (inject_Z 401) (inject_Z 401)) with true. cbv beta iota.
      split_and!; reflexivity.
  }
  cbv zeta. split_and!; apply H.
Qed.

Lemma refused_message_classified_witness :
  timers (fst (getDeviceState_settle
                 (refused "Failure"
                    (JsObj [("response", JsObj [("status", JsNum (int 401))])]))
                 (Api.constructor example_config)))
    = [retry_timer (Api.constructor example_config)].
Proof.
  destruct (refused_message_classified "Failure"
              (JsObj [("response", JsObj [("status", JsNum (int 401))])])
              (Api.constructor example_config)) as (_ & H & _); [discriminate|].
  destruct H as (_ & _ & _ & _ & H).
  destruct (H _ _ eq_refl eq_refl eq_refl) as (-> & _). reflexivity.
Defined.

(** X11. With a non-empty token each operation stays pending and sends
    exactly one request, to its own endpoint, with the stored token as
    bearer and, for a command, the command as body. *)
Theorem operations_send_one_request (w : World) (data : AtombergFanCommandData) :
  ToBoolean (accessToken w) = true →
  (snd (getAllDevices w) = Pending ∧
   requests (fst (getAllDevices w))
     = requests w ++ [Request "get" (ATOMBERG_API_HOST +:+ GET_DEVICES) (accessToken w) None]) ∧
  (snd (getDeviceState w) = Pending ∧
   requests (fst (getDeviceState w))
     = requests w ++ [Request "get" (ATOMBERG_API_HOST +:+ GET_DEVICE_STATE) (accessToken w) None]) ∧
  (snd (sendCommand data w) = Pending ∧
   requests (fst (sendCommand data w))
     = requests w ++ [Request "post" (ATOMBERG_API_HOST +:+ SEND_COMMAND) (accessToken w)
                        (Some data)]).
Proof.
  intros Htoken. unfold getAllDevices, getDeviceState, sendCommand.
  cbn [Api.emit accessToken]. rewrite Htoken. cbn [negb fst snd].
  unfold requests. cbn [Api.emit trace].
  rewrite !List.filter_app. cbn [List.filter is_request]. rewrite !app_nil_r.
  auto 10.
Qed.

Lemma operations_send_one_request_witness :
  snd (getAllDevices (fst (login (success "token") (Api.constructor example_config)))) = Pending.
Proof.
  apply (operations_send_one_request
           (fst (login (success "token") (Api.constructor example_config)))
           {| cmd_device_id := "fan";
              command := {| cmd_power := Some true; cmd_speed := None |} |}).
  reflexivity.
Defined.

(** ** Accessory handler, further *)

Lemma refreshDeviceStatus_fanState deviceState a :
  fanState (refreshDeviceStatus deviceState a) = fanState a.
Proof.
  unfold refreshDeviceStatus. destruct deviceState as [st|]; [|reflexivity].
  destruct (is_online st); reflexivity.
Qed.

Lemma refreshes_fanState states : ∀ a,
  fanState (foldl (λ a state, refreshDeviceStatus (Some state) a) a states) = fanState a.
Proof.
  induction states as [|s states IH]; intros a; [reflexivity|].
  cbn [foldl]. rewrite IH. apply refreshDeviceStatus_fanState.
Qed.

Lemma power_bit device_id stateCode :
  power (decodeState device_id stateCode) = Z.testbit (ToInt32 stateCode) 4.
Proof.
  unfold decodeState; cbn [power]. change 0x10 with (2 ^ 4). apply flag_bit. lia.
Qed.

Lemma refresh_online state a :
  is_online state = true →
  service (refreshDeviceStatus (Some state) a) =
  {| Active := if power state then ACTIVE else INACTIVE;
     RotationSpeed := 20 * Z.min (last_recorded_speed state) 5 |}.
Proof.
  intros Hon. unfold refreshDeviceStatus. rewrite Hon. cbn [negb].
  cbn [updateCharacteristic service Accessory.emit].
  unfold set_RotationSpeed, set_Active. cbn [Active RotationSpeed].
  f_equal. destruct (Z.ltb_spec 5 (last_recorded_speed state)); lia.
Qed.

(** X12. A decoded broadcast always refreshes the service with values the
    characteristics admit: Active is 1 or 0 by bit 0x10 of the state code,
    RotationSpeed is 20 times the three-bit speed capped at 5, a multiple
    of 20 in [0, 100]; [fanState] is not touched. *)
Theorem broadcast_refresh_values (device_id : JsValue) (stateCode : Number)
    (a : AtombergFanPlatformAccessory) :
  let a' := refreshDeviceStatus (Some (decodeState device_id stateCode)) a in
  Active (service a') = (if Z.testbit (ToInt32 stateCode) 4 then ACTIVE else INACTIVE) ∧
  RotationSpeed (service a') = 20 * Z.min (ToInt32 stateCode mod 8) 5 ∧
  0 <= RotationSpeed (service a') <= 100 ∧
  RotationSpeed (service a') mod 20 = 0 ∧
  fanState a' = fanState a.
Proof.
  cbv zeta. rewrite (refresh_online (decodeState device_id stateCode) a eq_refl).
  cbn [Active RotationSpeed]. rewrite power_bit, speed_three_bits.
  pose proof (Z.mod_pos_bound (ToInt32 stateCode) 8).
  split_and!; [reflexivity | reflexivity | lia | lia | | ].
  - rewrite Z.mul_comm. apply Z.mod_mul. lia.
  - apply refreshDeviceStatus_fanState.
Qed.

(** X13. [fanState] is fixed at construction as far as broadcasts go: an
    accessory built from an offline state, or from none, refuses every
    command with a thrown error and sends nothing, however many states
    are refreshed into it afterwards. *)
Theorem offline_at_construction_refuses_commands (name : string) (Fanv2 : option Service)
    (initial : option AtombergFanDeviceState) (states : list AtombergFanDeviceState)
    (deviceId : string) (value : Z) (w : World) :
  (∀ st, initial = Some st → is_online st = false) →
  let a := foldl (λ a state, refreshDeviceStatus (Some state) a)
             (Accessory.constructor name Fanv2 initial) states in
  fanState a = initial ∧
  (∃ a' thrown, setActive deviceId value a w = (a', w, Some thrown) ∧
                service a' = service a ∧ fanState a' = fanState a) ∧
  (∃ a' thrown, setRotationSpeed deviceId value a w = Some (a', w, Some thrown) ∧
                service a' = service a ∧ fanState a' = fanState a).
Proof.
  intros Hoff. cbv zeta.
  set (a := foldl _ _ states).
  assert (Hstate : fanState a = initial).
  { subst a. rewrite refreshes_fanState. unfold Accessory.constructor.
    now rewrite refreshDeviceStatus_fanState. }
  split; [exact Hstate|].
  unfold setActive, setRotationSpeed, validateDeviceConnectionStatus.
  rewrite Hstate. destruct initial as [st|].
  - rewrite (Hoff st eq_refl). cbn [negb]. split; eauto 10.
  - split; eauto 10.
Qed.

Lemma offline_at_construction_refuses_commands_witness :
  let offline := {| state_device_id := JsStr "fan"; is_online := false; power := false;
                    led := false; sleep_mode := false; last_recorded_speed := 0;
                    timer_hours := 0; timer_time_elapsed_mins := 0;
                    ts_epoch_seconds := Some 0; last_recorded_brightness := 0;
                    last_recorded_color := "Warm" |} in
  let a := foldl (λ a state, refreshDeviceStatus (Some state) a)
             (Accessory.constructor "fan" None (Some offline))
             [decodeState (JsStr "fan") (int 0x13)] in
  fanState a = Some offline.
Proof.
  intros offline.
  apply (offline_at_construction_refuses_commands "fan" None (Some offline)
           [decodeState (JsStr "fan") (int 0x13)] "fan" 1
           (Api.constructor example_config)).
  intros st [= <-]. reflexivity.
Defined.

Lemma sendCommand_commands data w :
  commands (fst (sendCommand data w))
    = commands w ++ (if ToBoolean (accessToken w) then [data] else []).
Proof.
  unfold sendCommand, commands. cbn [Api.emit accessToken].
  destruct (ToBoolean (accessToken w)); cbn [negb fst Api.emit trace].
  - rewrite !omap_app. cbn [omap list_omap]. now rewrite app_nil_r.
  - rewrite omap_app. cbn [omap list_omap]. now rewrite !app_nil_r.
Qed.

Lemma sendDeviceUpdate_online data a w st :
  fanState a = Some st → is_online st = true →
  ∃ a', sendDeviceUpdate data a w = (a', fst (sendCommand data w), None) ∧
        service a' = service a ∧ fanState a' = fanState a.
Proof.
  intros Hst Hon. unfold sendDeviceUpdate, validateDeviceConnectionStatus.
  rewrite Hst, Hon. cbn [negb].
  destruct (sendCommand data w) as [w' [reason|]]; cbn [fst].
  - eexists; split; [reflexivity|]. unfold sendDeviceUpdate_catch.
    destruct reason as [e|e|v]; [split; cbn; auto..|].
    destruct (ToBoolean v); split; cbn; auto.
  - eexists; split; [reflexivity|]. split; cbn; auto.
Qed.

(** X14. [setActive] on an online accessory never throws and sends at most
    one command: none when there is no token, else power on with the speed
    held in [fanState], or power off with speed 0. The service values are
    left alone. *)
Theorem setActive_command (deviceId : string) (value : Z)
    (a : AtombergFanPlatformAccessory) (w : World) (st : AtombergFanDeviceState) :
  fanState a = Some st → is_online st = true →
  ∃ a' w',
    setActive deviceId value a w = (a', w', None) ∧
    service a' = service a ∧
    commands w' = commands w ++
      (if ToBoolean (accessToken w) then
         [{| cmd_device_id := deviceId;
             command := {| cmd_power := Some (value =? 1);
                           cmd_speed :=
                             Some (if value =? 1 then last_recorded_speed st else 0) |} |}]
       else []).
Proof.
  intros Hst Hon. unfold setActive, validateDeviceConnectionStatus.
  rewrite Hst, Hon. cbn [negb]. rewrite Hst.
  cbn [fmap option_fmap option_map from_option fanState Accessory.emit set_fanState
       last_recorded_speed set_power].
  set (a1 := Accessory.emit _ (set_fanState _ a)).
  set (cmd := {| cmd_device_id := deviceId; command := _ |}).
  destruct (sendDeviceUpdate_online cmd a1 w (set_power (negb (value =? 0)) st)
              eq_refl Hon) as (a' & -> & Hsvc & _).
  exists a', (fst (sendCommand cmd w)). split; [reflexivity|].
  split; [exact Hsvc|]. rewrite sendCommand_commands. reflexivity.
Qed.

Lemma setActive_command_witness :
  let online := decodeState (JsStr "fan") (int 0x13) in
  let a := Accessory.constructor "fan" None (Some online) in
  let w := fst (login (success "token") (Api.constructor example_config)) in
  ∃ a' w',
    setActive "fan" 1 a w = (a', w', None) ∧
    service a' = service a ∧
    commands w' = commands w ++
      (if ToBoolean (accessToken w) then
         [{| cmd_device_id := "fan";
             command := {| cmd_power := Some (1 =? 1);
                           cmd_speed :=
                             Some (if 1 =? 1 then last_recorded_speed online else 0) |} |}]
       else []).
Proof.
  intros online a w.
  apply (setActive_command "fan" 1 a w online); reflexivity.
Defined.

(** X15. The percentage shown for a speed commands that speed when it is
    set back: on an online accessory with a token, refreshing a state of
    speed [s >= 0] and then setting the RotationSpeed just written sends
    one command, of speed [min s 5], and records it in [fanState]. *)
Theorem rotation_speed_round_trip (deviceId : string) (s : Z)
    (state st : AtombergFanDeviceState) (a : AtombergFanPlatformAccessory) (w : World) :
  fanState a = Some st → is_online st = true →
  is_online state = true → last_recorded_speed state = s → 0 <= s →
  ToBoolean (accessToken w) = true →
  let a1 := refreshDeviceStatus (Some state) a in
  RotationSpeed (service a1) = 20 * Z.min s 5 ∧
  ∃ a2 w2,
    setRotationSpeed deviceId (RotationSpeed (service a1)) a1 w = Some (a2, w2, None) ∧
    commands w2 = commands w ++
      [{| cmd_device_id := deviceId;
          command := {| cmd_power := None; cmd_speed := Some (Z.min s 5) |} |}] ∧
    (last_recorded_speed <$> fanState a2) = Some (Z.min s 5).
Proof.
  intros Hst Hon Hstate Hs Hpos Htoken. cbv zeta.
  assert (Hshown : RotationSpeed (service (refreshDeviceStatus (Some state) a))
                   = 20 * Z.min s 5).
  { rewrite (refresh_online state a Hstate). cbn [RotationSpeed]. now rewrite Hs. }
  split; [exact Hshown|].
  rewrite Hshown.
  assert (Hdiv : 20 * Z.min s 5 / 20 = Z.min s 5).
  { rewrite Z.mul_comm. apply Z.div_mul. lia. }
  assert (Hmod : ((20 * Z.min s 5) mod 20 =? 0) = true).
  { apply Z.eqb_eq. rewrite Z.mul_comm. apply Z.mod_mul. lia. }
  unfold setRotationSpeed, validateDeviceConnectionStatus.
  rewrite refreshDeviceStatus_fanState, Hst, Hon. cbn [negb].
  rewrite Hmod, refreshDeviceStatus_fanState, Hst, Hdiv.
  cbn [fmap option_fmap option_map].
  set (a1 := Accessory.emit _ (set_fanState _ _)).
  set (cmd := {| cmd_device_id := deviceId; command := _ |}).
  destruct (sendDeviceUpdate_online cmd a1 w (set_last_recorded_speed (Z.min s 5) st)
              eq_refl Hon) as (a' & -> & _ & Hfan).
  exists a', (fst (sendCommand cmd w)). split; [reflexivity|].
  split.
  - rewrite sendCommand_commands, Htoken. reflexivity.
  - rewrite Hfan. reflexivity.
Qed.

Lemma rotation_speed_round_trip_witness :
  let state := decodeState (JsStr "fan") (int 0x16) in
  let a := Accessory.constructor "fan" None (Some state) in
  let w := fst (login (success "token") (Api.constructor example_config)) in
  RotationSpeed (service (refreshDeviceStatus (Some state) a)) = 20 * Z.min 6 5.
Proof.
  intros state a w.
  apply (rotation_speed_round_trip "fan" 6 state state a w); try reflexivity. lia.
Defined.

(** ** Platform, further *)

(** X16. A pass whose fetch fails changes nothing but the log: when
    [getAllDevices] rejects or yields no list, or [getDeviceState]
    rejects, no accessory is registered, updated or unregistered, and the
    cache and the instances are as before. *)
Theorem failed_fetch_changes_nothing (generate : string → string)
    (p : AtombergFanPlatform) :
  let untouched p' :=
    accessories p' = accessories p ∧ accessoryInstances p' = accessoryInstances p ∧
    registered (effects p') = registered (effects p) ∧
    updated (effects p') = updated (effects p) ∧
    unregistered (effects p') = unregistered (effects p) in
  (∀ reason deviceStates,
     untouched (discoverDevices generate (Api.Rejected reason) deviceStates p)) ∧
  (∀ deviceStates,
     untouched (discoverDevices generate (Api.Fulfilled None) deviceStates p)) ∧
  (∀ devices reason,
     untouched (discoverDevices generate (Api.Fulfilled (Some devices))
                  (Api.Rejected reason) p)).
Proof.
  cbv zeta. unfold discoverDevices, discovery_failed.
  split_and!.
  - intros reason deviceStates. cbn [Platform.emit accessories accessoryInstances effects].
    rewrite !registered_snoc, !updated_snoc, !unregistered_snoc, !app_nil_r. auto.
  - intros deviceStates. cbn [Platform.emit accessories].
    destruct (accessories p) as [|c cs] eqn:Hacc;
      cbn [Platform.emit accessories accessoryInstances effects];
      rewrite !registered_snoc, !updated_snoc, !unregistered_snoc, !app_nil_r; auto.
  - intros devices reason. cbn [Platform.emit accessories accessoryInstances effects].
    rewrite !registered_snoc, !updated_snoc, !unregistered_snoc, !app_nil_r. auto.
Qed.

Lemma discoverDevice_frame generate deviceStates p device :
  let p' := discoverDevice generate deviceStates p device in
  UUID <$> accessories p' = UUID <$> accessories p ∧
  dom (accessoryInstances p') = {[device_id device]} ∪ dom (accessoryInstances p).
Proof.
  cbv zeta. unfold discoverDevice.
  destruct (list_find _ (accessories p)) as [[i a]|] eqn:Hfind.
  - apply list_find_Some in Hfind as (Hi & _ & _).
    cbn [set_instance Platform.emit set_accessories accessories accessoryInstances].
    split; [|apply dom_insert_L].
    rewrite list_fmap_insert. cbn [set_context UUID].
    apply list_insert_id. now rewrite list_lookup_fmap, Hi.
  - cbn [set_instance Platform.emit set_accessories accessories accessoryInstances].
    split; [reflexivity | apply dom_insert_L].
Qed.

Lemma discover_loop_frame generate deviceStates devices : ∀ p,
  let p' := foldl (discoverDevice generate deviceStates) p devices in
  UUID <$> accessories p' = UUID <$> accessories p ∧
  dom (accessoryInstances p') = inventory devices ∪ dom (accessoryInstances p).
Proof.
  induction devices as [|device devices IH]; intros p; cbn [foldl].
  - split; [reflexivity|]. change (inventory []) with (∅ : gset string).
    generalize (dom (accessoryInstances p)). intros D. set_solver.
  - destruct (discoverDevice_frame generate deviceStates p device) as [U1 D1].
    destruct (IH (discoverDevice generate deviceStates p device)) as [U2 D2].
    cbv zeta in *. split; [now rewrite U2|]. rewrite D2, D1.
    change (inventory (device :: devices))
      with ({[device_id device]} ∪ inventory devices : gset string).
    generalize (dom (accessoryInstances p)) (inventory devices). intros D R. set_solver.
Qed.

Lemma remove_loop_frame devices l : ∀ p,
  accessoryInstances (foldl (removeIfGone devices) p l) = accessoryInstances p.
Proof.
  induction l as [|a l IH]; intros p; cbn [foldl]; [reflexivity|].
  rewrite IH. unfold removeIfGone. now destruct (List.find _ devices).
Qed.

(** X17. After a pass whose fetches succeed every remote device has an
    instance to route state changes to, and no instance is dropped; the
    list of cached accessories keeps its length and its UUIDs: the pass
    neither adds the accessories it registers to it nor takes the ones it
    unregisters out of it. *)
Theorem discovery_registers_instances (generate : string → string)
    (devices : list AtombergFanDevice) (deviceStates : list AtombergFanDeviceState)
    (p : AtombergFanPlatform) :
  let p' := discoverDevices generate (Api.Fulfilled (Some devices))
              (Api.Fulfilled deviceStates) p in
  dom (accessoryInstances p') = inventory devices ∪ dom (accessoryInstances p) ∧
  UUID <$> accessories p' = UUID <$> accessories p.
Proof.
  cbv zeta. unfold discoverDevices.
  set (p0 := Platform.emit _ p).
  destruct (discover_loop_frame generate deviceStates devices p0) as [U D].
  destruct (remove_loop_spec devices
              (accessories (foldl (discoverDevice generate deviceStates) p0 devices))
              (foldl (discoverDevice generate deviceStates) p0 devices)) as (E & _).
  cbv zeta in *. rewrite remove_loop_frame, E. split; [exact D | exact U].
Qed.

Lemma remove_all l : ∀ p,
  unregistered (effects (foldl (removeIfGone []) p l)) = unregistered (effects p) ++ l.
Proof.
  induction l as [|a l IH]; intros p; cbn [foldl]; [now rewrite app_nil_r|].
  rewrite IH. unfold removeIfGone. cbn [List.find Platform.emit effects].
  rewrite !unregistered_snoc, app_nil_r, <- app_assoc. reflexivity.
Qed.

(** X18. An inventory that is fetched but empty unregisters every cached
    accessory, in cache order, and registers and updates none. *)
Theorem empty_inventory_unregisters_all (generate : string → string)
    (deviceStates : list AtombergFanDeviceState) (p : AtombergFanPlatform) :
  let p' := discoverDevices generate (Api.Fulfilled (Some []))
              (Api.Fulfilled deviceStates) p in
  unregistered (effects p') = unregistered (effects p) ++ accessories p ∧
  registered (effects p') = registered (effects p) ∧
  updated (effects p') = updated (effects p).
Proof.
  cbv zeta. unfold discoverDevices. cbn [foldl].
  set (p0 := Platform.emit _ p).
  destruct (remove_loop_spec [] (accessories p0) p0) as (_ & R & U & _).
  cbv zeta in *. rewrite remove_all, R, U. subst p0. cbn [Platform.emit effects accessories].
  rewrite registered_snoc, updated_snoc, unregistered_snoc, !app_nil_r. auto.
Qed.

(** X19. Routing of a state change: only the instance registered under the
    [device_id] of the state is refreshed; every other instance, the set
    of registered identifiers and the cache are untouched, and a state for
    an unregistered or non-string identifier is dropped without a trace. *)
Theorem handleStateChange_routes (state : AtombergFanDeviceState)
    (p : AtombergFanPlatform) :
  let p' := handleStateChange state p in
  accessories p' = accessories p ∧
  dom (accessoryInstances p') = dom (accessoryInstances p) ∧
  (∀ id, accessoryInstances p' !! id =
         if is_id id state
         then refreshDeviceStatus (Some state) <$> accessoryInstances p !! id
         else accessoryInstances p !! id) ∧
  ((∀ id, state_device_id state = JsStr id → accessoryInstances p !! id = None) → p' = p).
Proof.
  cbv zeta. unfold handleStateChange, is_id.
  destruct (state_device_id state) as [| | | |s| |] eqn:Hid;
    try (split_and!; reflexivity).
  destruct (accessoryInstances p !! s) as [a|] eqn:Hs.
  - cbn [set_instance Platform.emit accessories accessoryInstances].
    split_and!.
    + reflexivity.
    + rewrite dom_insert_L. apply elem_of_dom_2 in Hs.
      revert Hs. generalize (dom (accessoryInstances p)). intros D HD. set_solver.
    + intros id. destruct (String.eqb_spec s id) as [<- | Hne].
      * rewrite lookup_insert_eq, Hs. reflexivity.
      * rewrite lookup_insert_ne by congruence. reflexivity.
    + intros Hnone. rewrite (Hnone s eq_refl) in Hs. discriminate.
  - split_and!; try reflexivity.
    intros id. destruct (String.eqb_spec s id) as [<- | Hne];
      [now rewrite Hs | reflexivity].
Qed.

Lemma handleStateChange_routes_witness :
  let p := {| accessories := []; accessoryInstances := ∅; effects := [] |} in
  handleStateChange (decodeState (JsStr "fan") (int 0x13)) p = p.
Proof.
  intros p.
  apply (handleStateChange_routes (decodeState (JsStr "fan") (int 0x13)) p).
  intros id _. apply lookup_empty.
Defined.

Lemma login_request_requests w :
  requests (login_request w)
    = requests w ++ [Request "get" (ATOMBERG_API_HOST +:+ GET_ACCESS_TOKEN)
                       (JsStr (refreshToken (config w))) None].
Proof.
  assert (Htrace : ∀ l w, trace (foldl (λ w timeoutId, clearTimeout timeoutId w) w l)
                          = trace w ∧
                          config (foldl (λ w timeoutId, clearTimeout timeoutId w) w l)
                          = config w).
  { induction l as [|id l IH]; intros w0; cbn [foldl]; [auto|].
    destruct (IH (clearTimeout id w0)) as [-> ->]. auto. }
  unfold login_request, requests. cbn [Api.emit trace].
  destruct (Htrace (_loginRetryTimeouts w) w) as [Ht Hc].
  destruct (_loginRefreshInterval (foldl _ w (_loginRetryTimeouts w))) as [id|];
    cbn [clearInterval clearTimeout set_timers trace config];
    rewrite Ht, Hc, List.filter_app; reflexivity.
Qed.

(** X20. The plugin talks to the cloud only when it is configured: the
    [didFinishLaunching] callback sends the login request, with the
    refresh token as bearer, exactly when both [apiKey] and
    [refreshToken] are non-empty; otherwise the session manager is left
    as it was. *)
Theorem launch_needs_configuration (p : AtombergFanPlatform) (w : World) :
  let w' := snd (didFinishLaunching p w) in
  requests w' = requests w ++
    (if String.eqb (apiKey (config w)) "" || String.eqb (refreshToken (config w)) ""
     then []
     else [Request "get" (ATOMBERG_API_HOST +:+ GET_ACCESS_TOKEN)
             (JsStr (refreshToken (config w))) None]) ∧
  (apiKey (config w) = "" ∨ refreshToken (config w) = "" → w' = w).
Proof.
  cbv zeta. unfold didFinishLaunching. cbn [ToBoolean].
  destruct (String.eqb_spec (apiKey (config w)) "") as [Hk | Hk]; cbn [negb orb snd].
  - split; [now rewrite app_nil_r | reflexivity].
  - destruct (String.eqb_spec (refreshToken (config w)) "") as [Hr | Hr]; cbn [negb snd].
    + split; [now rewrite app_nil_r | reflexivity].
    + split; [apply login_request_requests | intros [? | ?]; contradiction].
Qed.

Lemma launch_needs_configuration_witness :
  let w := Api.constructor {| apiKey := ""; refreshToken := "refresh" |} in
  snd (didFinishLaunching {| accessories := []; accessoryInstances := ∅; effects := [] |} w)
    = w.
Proof.
  intros w.
  apply (launch_needs_configuration
           {| accessories := []; accessoryInstances := ∅; effects := [] |} w).
  left. reflexivity.
Defined.

Lemma append_nonempty_r (s t : string) : t ≠ "" → s +:+ t ≠ "".
Proof.
  intros Ht. destruct s as [|c s]; [exact Ht | discriminate].
Qed.

(** X21. The Model characteristic is never empty: it is the model and the
    series joined by a space when both are known, the one that is known
    when only one is, and "Unknown" when neither is. *)
Theorem modelName_never_empty (model series : string) :
  modelName model series ≠ "" ∧
  modelName model series =
    (if String.eqb model "" then (if String.eqb series "" then "Unknown" else series)
     else if String.eqb series "" then model else (model +:+ " ") +:+ series).
Proof.
  unfold modelName.
  destruct (String.eqb_spec series "") as [-> | Hs];
    destruct (String.eqb_spec model "") as [-> | Hm]; cbn [negb].
  - split; [discriminate | reflexivity].
  - split; [assumption | reflexivity].
  - split; [assumption | reflexivity].
  - split.
    + apply append_nonempty_r. exact Hs.
    + reflexivity.
Qed.

Lemma constructor_fanState name Fanv2 fanState0 :
  fanState (Accessory.constructor name Fanv2 fanState0) = fanState0.
Proof. unfold Accessory.constructor. now rewrite refreshDeviceStatus_fanState. Qed.

Lemma discoverDevice_instance generate deviceStates p device :
  ∃ a, accessoryInstances (discoverDevice generate deviceStates p device)
         !! device_id device = Some a ∧
       fanState a = List.find (is_id (device_id device)) deviceStates.
Proof.
  unfold discoverDevice.
  destruct (list_find _ (accessories p)) as [[i a]|];
    cbn [set_instance Platform.emit set_accessories accessoryInstances];
    rewrite lookup_insert_eq; eexists; split; try reflexivity;
    apply constructor_fanState.
Qed.

Lemma discoverDevice_other generate deviceStates p device id :
  id ≠ device_id device →
  accessoryInstances (discoverDevice generate deviceStates p device) !! id
    = accessoryInstances p !! id.
Proof.
  intros Hne. unfold discoverDevice.
  destruct (list_find _ (accessories p)) as [[i a]|];
    cbn [set_instance Platform.emit set_accessories accessoryInstances];
    now rewrite lookup_insert_ne by congruence.
Qed.

Lemma discover_loop_instances generate deviceStates devices : ∀ p id,
  id ∈ inventory devices →
  ∃ a, accessoryInstances (foldl (discoverDevice generate deviceStates) p devices) !! id
         = Some a ∧
       fanState a = List.find (is_id id) deviceStates.
Proof.
  induction devices as [|device devices IH] using rev_ind; intros p id Hin.
  - now apply elem_of_inventory in Hin as (? & ?%elem_of_nil & _).
  - rewrite foldl_app. cbn [foldl].
    destruct (decide (id = device_id device)) as [-> | Hne].
    + apply discoverDevice_instance.
    + rewrite discoverDevice_other by assumption. apply IH.
      apply elem_of_inventory in Hin as (d & Hd & Hid).
      apply elem_of_app in Hd as [Hd | Hd].
      * apply elem_of_inventory. eauto.
      * apply list_elem_of_singleton in Hd as ->. congruence.
Qed.

(** X22. After a pass whose fetches succeed, the instance of every remote
    device holds as [fanState] the first fetched state with the
    identifier of the device, or none when no state was fetched for it. *)
Theorem discovered_instance_state (generate : string → string)
    (devices : list AtombergFanDevice) (deviceStates : list AtombergFanDeviceState)
    (p : AtombergFanPlatform) (device : AtombergFanDevice) :
  device ∈ devices →
  let p' := discoverDevices generate (Api.Fulfilled (Some devices))
              (Api.Fulfilled deviceStates) p in
  ∃ a, accessoryInstances p' !! device_id device = Some a ∧
       fanState a = List.find (is_id (device_id device)) deviceStates.
Proof.
  intros Hin. cbv zeta. unfold discoverDevices. rewrite remove_loop_frame.
  apply discover_loop_instances. apply elem_of_inventory. eauto.
Qed.

Lemma discovered_instance_state_witness :
  let p := discoverDevices example_generate
             (Api.Fulfilled (Some [example_device "A"; example_device "B"]))
             (Api.Fulfilled [decodeState (JsStr "B") (int 0x13)])
             {| accessories := [example_cached "B"]; accessoryInstances := ∅;
                effects := [] |} in
  ∃ a, accessoryInstances p !! "A" = Some a ∧
       fanState a = List.find (is_id "A") [decodeState (JsStr "B") (int 0x13)].
Proof.
  apply (discovered_instance_state example_generate
           [example_device "A"; example_device "B"]
           [decodeState (JsStr "B") (int 0x13)]
           {| accessories := [example_cached "B"]; accessoryInstances := ∅; effects := [] |}
           (example_device "A")).
  left.
Defined.
